(** * Pinpoint MCP server: a shallow embedding of the adapter, the tool
      handlers and the PDF text extractor, with the properties of the
      specification checked against it.

    Source files embedded here:
    - the API adapter ([getJobs], [getJobById], [createApplication],
      [getApplications], [getApplicationById]);
    - the PDF utility ([parsePdfFromUrl], [extractTextFromPdf]);
    - [main.ts]: the six tool handlers and the [get-jobs] argument schema.

    JavaScript values are an inductive type, objects used as string maps
    are [gmap string string], [async] functions are computations in a small
    monad that threads the trace of observable effects (HTTP requests sent,
    [console.error] lines) and ends fulfilled, rejected or pending. *)

From Stdlib Require Import ZArith Lia.
From stdpp Require Import base strings list gmap pretty.

Local Set Warnings "-register-all,-clear-no-such-hyp".

(** ** JavaScript values *)

Module JS.

(** Numbers are the integer-valued ones (identifiers, page numbers, HTTP
    status codes): [NaN], fractions and [-0] are outside the model. *)
Inductive value : Type :=
| VUndefined
| VNull
| VBool (b : bool)
| VNum (n : Z)
| VStr (s : string)
| VArr (xs : list value)
| VObj (fields : list (string * value)).

(** [if (v)], [!v], [a || b]: ToBoolean. *)
Definition truthy (v : value) : bool :=
  match v with
  | VUndefined | VNull => false
  | VBool b => b
  | VNum n => negb (n =? 0)%Z
  | VStr s => negb (String.eqb s "")
  | VArr _ | VObj _ => true
  end.

(** [a || b] *)
Definition or_else (a b : value) : value := if truthy a then a else b.

(** [n.toString()] on an integer-valued number: its decimal digits, with a
    leading minus sign below zero (the plain notation JavaScript uses below
    10^21 in magnitude). *)
Definition Number_toString (n : Z) : string := pretty n.

(** [xs.join(sep)] on an array of strings. *)
Fixpoint join (sep : string) (xs : list string) : string :=
  match xs with
  | [] => ""
  | [x] => x
  | x :: rest => x +:+ sep +:+ join sep rest
  end.

(** String conversion as a template literal performs it. An array is its
    elements joined by commas, [null] and [undefined] elements rendering
    as nothing; a plain object is ["[object Object]"]. *)
Fixpoint to_string (v : value) : string :=
  match v with
  | VUndefined => "undefined"
  | VNull => "null"
  | VBool true => "true"
  | VBool false => "false"
  | VNum n => Number_toString n
  | VStr s => s
  | VArr xs =>
      join "," (List.map (fun x => match x with
                                   | VUndefined | VNull => ""
                                   | _ => to_string x
                                   end) xs)
  | VObj _ => "[object Object]"
  end.

(** Own-property lookup in an object literal or a parsed JSON object
    (keys are distinct there). *)
Fixpoint field (k : string) (fields : list (string * value)) : value :=
  match fields with
  | [] => VUndefined
  | (k', v) :: rest => if String.eqb k k' then v else field k rest
  end.

(** [s.includes(sub)], as a proposition and as a test. *)
Definition Includes (sub s : string) : Prop :=
  ∃ a b, s = a +:+ sub +:+ b.

Fixpoint includes (sub s : string) : bool :=
  String.prefix sub s ||
  match s with
  | EmptyString => false
  | String _ s' => includes sub s'
  end.

End JS.

Import JS.

(** ** Effects: the network, the console and promises *)

(** What a rejected promise carries: [error.message] and, when the failed
    exchange did get an HTTP response, [error.response.data]. *)
Record error : Type := { message : string; response_data : option value }.

(** Requests made through the configured [api] instance (base URL and
    API-key header are fixed by the instance and left implicit). A call
    without a [params] object has the empty parameter map. *)
Inductive request : Type :=
| ApiGet (path : string) (params : gmap string string)
| ApiPost (path : string) (body : value).

Inductive event : Type :=
| Sent (r : request)
| Fetched (url : string)
| ConsoleError (args : list value).

(** What comes back from the wire. *)
Inductive reply (B : Type) : Type :=
| Http (status : Z) (body : B)
| NetworkFailure (reason : string).
Arguments Http {B} status body.
Arguments NetworkFailure {B} reason.

(** One invocation of the PDF parser's callback, [(err, item)]; a null or
    undefined [item] is [None], an item without a [text] property has
    [text = None]. *)
Record Item : Type := { text : option string }.
Record callback : Type := { err : value; item : option Item }.

(** Everything outside the program: the upstream REST service and the web
    (both may answer differently as the trace grows), and the callbacks the
    PDF parser makes, in order, for a given buffer. *)
Record World : Type := {
  upstream : list event → request → reply value;
  web : list event → string → reply (list Byte.byte);
  PdfReader_parseBuffer : list Byte.byte → list callback
}.

Inductive outcome (A : Type) : Type :=
| Fulfilled (a : A)
| Rejected (e : error)
| Pending.
Arguments Fulfilled {A} a.
Arguments Rejected {A} e.
Arguments Pending {A}.

(** An [async] computation: given the world and the trace so far, the state
    its promise ends in and the extended trace. *)
Definition Async (A : Type) : Type := World → list event → outcome A * list event.

Global Instance Async_ret : MRet Async := λ A a _ tr, (Fulfilled a, tr).

Global Instance Async_bind : MBind Async := λ A B k m w tr,
  match m w tr with
  | (Fulfilled a, tr') => k a w tr'
  | (Rejected e, tr') => (Rejected e, tr')
  | (Pending, tr') => (Pending, tr')
  end.

Definition throw {A : Type} (e : error) : Async A := λ _ tr, (Rejected e, tr).

(** [try { m } catch (error) { h error }] *)
Definition try_catch {A : Type} (m : Async A) (h : error → Async A) : Async A :=
  λ w tr,
    match m w tr with
    | (Rejected e, tr') => h e w tr'
    | r => r
    end.

Definition console_error (args : list value) : Async unit :=
  λ _ tr, (Fulfilled tt, tr ++ [ConsoleError args]).

(** *** axios *)

Record response (B : Type) : Type := { data : B }.
Arguments data {B} r.

(** The default [validateStatus]. *)
Definition validateStatus (status : Z) : bool :=
  (200 <=? status)%Z && (status <? 300)%Z.

(** How axios settles a request: a reply whose status passes
    [validateStatus] fulfils with the response, any other reply rejects with
    "Request failed with status code N" and keeps the response; no reply
    rejects with the transport's message and no response. *)
Definition settle {B : Type} (body_value : B → value) (r : reply B) : outcome (response B) :=
  match r with
  | Http status body =>
      if validateStatus status then Fulfilled {| data := body |}
      else Rejected {| message := "Request failed with status code " +:+ Number_toString status;
                       response_data := Some (body_value body) |}
  | NetworkFailure reason =>
      Rejected {| message := reason; response_data := None |}
  end.

Definition api_get (path : string) (params : gmap string string) : Async (response value) :=
  λ w tr, let r := ApiGet path params in (settle id (upstream w tr r), tr ++ [Sent r]).

Definition api_post (path : string) (body : value) : Async (response value) :=
  λ w tr, let r := ApiPost path body in (settle id (upstream w tr r), tr ++ [Sent r]).

(** [axios.get(url, { responseType: 'arraybuffer' })]; the body of a failed
    download is opaque binary data. *)
Definition axios_get_arraybuffer (url : string) : Async (response (list Byte.byte)) :=
  λ w tr, (settle (λ _, VObj []) (web w tr url), tr ++ [Fetched url]).

(** ** The API adapter *)

(** [error.response?.data || error.message] *)
Definition diagnostic (e : error) : value :=
  or_else (match response_data e with Some d => d | None => VUndefined end)
          (VStr (message e)).

Module JobFilters.
Record t : Type := {
  search : option string;
  status : option string;
  employment_type : option string;
  workplace_type : option string;
  page : option Z;
  per_page : option Z
}.
End JobFilters.

(** [if (field) { params[key] = field; }] for an optional string field. *)
Definition assign_string (key : string) (field : option string)
    (params : gmap string string) : gmap string string :=
  match field with
  | Some s => if truthy (VStr s) then <[key := s]> params else params
  | None => params
  end.

(** [if (field) { params[key] = field.toString(); }] for an optional number. *)
Definition assign_number (key : string) (field : option Z)
    (params : gmap string string) : gmap string string :=
  match field with
  | Some n => if truthy (VNum n) then <[key := Number_toString n]> params else params
  | None => params
  end.

(** The [params] object [getJobs] builds. *)
Definition getJobs_params (filters : JobFilters.t) : gmap string string :=
  let params := ∅ in
  let params := assign_string "filter[search]" (JobFilters.search filters) params in
  let params := assign_string "filter[status]" (JobFilters.status filters) params in
  let params := assign_string "filter[employment_type]" (JobFilters.employment_type filters) params in
  let params := assign_string "filter[workplace_type]" (JobFilters.workplace_type filters) params in
  let params := assign_number "page[number]" (JobFilters.page filters) params in
  let params := assign_number "page[size]" (JobFilters.per_page filters) params in
  params.

Definition getJobs (filters : JobFilters.t) : Async value :=
  try_catch
    (response ← api_get "/jobs" (getJobs_params filters);
     mret (data response))
    (λ error,
       console_error [VStr "Error fetching jobs:"; diagnostic error];;
       throw error).

Definition getJobById (id : string) : Async value :=
  try_catch
    (response ← api_get ("/jobs/" +:+ id) ∅;
     mret (data response))
    (λ error,
       console_error [VStr ("Error fetching job " +:+ id +:+ ":"); diagnostic error];;
       throw error).

Record MinimalApplicationData : Type := {
  firstName : string;
  lastName : string;
  email : string;
  jobId : string
}.

(** The JSON:API document [createApplication] posts. *)
Definition applicationData (application : MinimalApplicationData) : value :=
  VObj [("data", VObj [
    ("type", VStr "applications");
    ("attributes", VObj [
       ("first_name", VStr (firstName application));
       ("last_name", VStr (lastName application));
       ("email", VStr (email application))]);
    ("relationships", VObj [
       ("job", VObj [
          ("data", VObj [
             ("type", VStr "jobs");
             ("id", VStr (jobId application))])])])])].

Definition createApplication (application : MinimalApplicationData) : Async value :=
  try_catch
    (response ← api_post "/applications" (applicationData application);
     mret (data response))
    (λ error,
       console_error [VStr "Error creating application:"; diagnostic error];;
       throw error).

Module ApplicationFilters.
Record t : Type := {
  job_id : option string;
  job_visibility : option string;
  stage_id : option string;
  page : option Z;
  per_page : option Z
}.
End ApplicationFilters.

(** The [params] object [getApplications] builds. *)
Definition getApplications_params (filters : ApplicationFilters.t) : gmap string string :=
  let params := ∅ in
  let params := assign_string "filter[job_id]" (ApplicationFilters.job_id filters) params in
  let params := assign_string "filter[job_visibility]" (ApplicationFilters.job_visibility filters) params in
  let params := assign_string "filter[stage_id]" (ApplicationFilters.stage_id filters) params in
  let params := assign_number "page" (ApplicationFilters.page filters) params in
  let params := assign_number "per_page" (ApplicationFilters.per_page filters) params in
  let params := <["extra_fields[applications]" := "attachments"]> params in
  let params := <["stats[total]" := "count"]> params in
  params.

Definition getApplications (filters : ApplicationFilters.t) : Async value :=
  try_catch
    (response ← api_get "/applications" (getApplications_params filters);
     mret (data response))
    (λ error,
       console_error [VStr "Error fetching applications:"; diagnostic error];;
       throw error).

Definition getApplicationById (id : string) : Async value :=
  try_catch
    (response ← api_get ("/applications/" +:+ id) ∅;
     mret (data response))
    (λ error,
       console_error [VStr ("Error fetching application " +:+ id +:+ ":"); diagnostic error];;
       throw error).

(** ** The PDF text extractor *)

(** [new Error(msg)] *)
Definition Error (msg : string) : error :=
  {| message := msg; response_data := None |}.

(** The closure state of [extractTextFromPdf]: the [textItems] array, the
    state of the returned promise, and what the callback logged. *)
Record ExtractState : Type := {
  textItems : list string;
  resolved : option string;
  logged : list event
}.

(** [resolve(s)]: only the first call settles the promise. *)
Definition resolve (s : string) (st : ExtractState) : ExtractState :=
  match resolved st with
  | Some _ => st
  | None => {| textItems := textItems st; resolved := Some s; logged := logged st |}
  end.

(** The callback handed to [parseBuffer]. *)
Definition on_item (st : ExtractState) (cb : callback) : ExtractState :=
  if truthy (err cb) then
    let st := {| textItems := textItems st; resolved := resolved st;
                 logged := logged st ++ [ConsoleError [VStr "PDF parsing error:"; err cb]] |} in
    resolve "Error extracting text from PDF" st
  else
    match item cb with
    | None => resolve (join " " (textItems st)) st
    | Some it =>
        match text it with
        | Some t =>
            if truthy (VStr t)
            then {| textItems := textItems st ++ [t]; resolved := resolved st; logged := logged st |}
            else st
        | None => st
        end
    end.

(** The promise stays pending when no callback ever resolves it. *)
Definition extractTextFromPdf (buffer : list Byte.byte) : Async string :=
  λ w tr,
    let st := fold_left on_item (PdfReader_parseBuffer w buffer)
                {| textItems := []; resolved := None; logged := [] |} in
    (match resolved st with Some s => Fulfilled s | None => Pending end,
     tr ++ logged st).

(** [Buffer.from(data)] on binary response data. *)
Definition Buffer_from (bytes : list Byte.byte) : list Byte.byte := bytes.

Definition parsePdfFromUrl (url : string) : Async string :=
  try_catch
    (response ← axios_get_arraybuffer url;
     let pdfBuffer := Buffer_from (data response) in
     text ← extractTextFromPdf pdfBuffer;
     mret text)
    (λ error,
       console_error [VStr "Error processing PDF:"; VStr (message error)];;
       throw (Error ("Failed to process PDF from URL: " +:+ message error))).

(** ** The tool registry (main.ts) *)

(** The response envelope of a tool. The [text] of a content item is a
    JavaScript value: a string, except where the handler passes on what
    [JSON.stringify] returned. *)
Module Mcp.
Record ContentItem : Type := { type : string; text : value }.
Record ToolResult : Type := { content : list ContentItem }.
End Mcp.

(** [{ content: [ { type: 'text', text: t } ] }] *)
Definition text_content (t : value) : Mcp.ToolResult :=
  {| Mcp.content := [ {| Mcp.type := "text"; Mcp.text := t |} ] |}.

Definition nl : string := String (Ascii.ascii_of_nat 10) "".

(** [v.k] for the property names this program reads ([data], [id],
    [attributes], [title], [meta]): reading a property of [undefined] or
    [null] throws a TypeError with the engine's message; a primitive or an
    array has no such property. *)
Definition get (v : value) (k : string) : Async value :=
  match v with
  | VUndefined =>
      throw (Error ("Cannot read properties of undefined (reading '" +:+ k +:+ "')"))
  | VNull =>
      throw (Error ("Cannot read properties of null (reading '" +:+ k +:+ "')"))
  | VObj fields => mret (field k fields)
  | _ => mret VUndefined
  end.

(** [v?.k] *)
Definition get_opt (v : value) (k : string) : value :=
  match v with
  | VObj fields => field k fields
  | _ => VUndefined
  end.

(** [error.message || 'Unknown error'] inside a template literal. *)
Definition message_or_unknown (e : error) : string :=
  to_string (or_else (VStr (message e)) (VStr "Unknown error")).

(** The argument schema of [get-jobs]: enumerations are checked, [page] and
    [per_page] must be positive when given and default to 1 and 20 when
    omitted. [None] is a validation failure: the handler is not invoked. *)
Definition z_enum (allowed : list string) (field : option string) : bool :=
  match field with
  | Some s => bool_decide (s ∈ allowed)
  | None => true
  end.

Definition z_positive_default (default : Z) (field : option Z) : option Z :=
  match field with
  | Some n => if (0 <? n)%Z then Some n else None
  | None => Some default
  end.

Definition get_jobs_schema (input : JobFilters.t) : option JobFilters.t :=
  if z_enum ["open"; "closed"; "filled"; "on_hold"; "draft"] (JobFilters.status input)
     && z_enum ["full_time"; "part_time"; "contract"; "temporary"; "internship"]
               (JobFilters.employment_type input)
     && z_enum ["onsite"; "remote"; "hybrid"] (JobFilters.workplace_type input)
  then
    page ← z_positive_default 1 (JobFilters.page input);
    per_page ← z_positive_default 20 (JobFilters.per_page input);
    Some {| JobFilters.search := JobFilters.search input;
            JobFilters.status := JobFilters.status input;
            JobFilters.employment_type := JobFilters.employment_type input;
            JobFilters.workplace_type := JobFilters.workplace_type input;
            JobFilters.page := Some page;
            JobFilters.per_page := Some per_page |}
  else None.

Section Handlers.

(** The host's [JSON.stringify(v, null, 2)]: a string, or [undefined] when
    [v] is [undefined]. *)
Variable JSON_stringify : value → value.

Definition get_jobs_handler (search status employment_type workplace_type : option string)
    (page per_page : option Z) : Async Mcp.ToolResult :=
  response ← getJobs {| JobFilters.search := search;
                        JobFilters.status := status;
                        JobFilters.employment_type := employment_type;
                        JobFilters.workplace_type := workplace_type;
                        JobFilters.page := page;
                        JobFilters.per_page := per_page |};
  let jobs := response in
  mret (text_content (JSON_stringify jobs)).

(** A [get-jobs] call as the server dispatches it: schema first, then the
    handler on the parsed arguments. *)
Definition get_jobs_tool (input : JobFilters.t) : option (Async Mcp.ToolResult) :=
  args ← get_jobs_schema input;
  Some (get_jobs_handler (JobFilters.search args) (JobFilters.status args)
          (JobFilters.employment_type args) (JobFilters.workplace_type args)
          (JobFilters.page args) (JobFilters.per_page args)).

Definition get_job_handler (id : string) : Async Mcp.ToolResult :=
  response ← getJobById id;
  let job := response in
  mret (text_content (JSON_stringify job)).

Definition create_application_handler (jobId firstName lastName email : string)
    : Async Mcp.ToolResult :=
  try_catch
    (jobResponse ← getJobById jobId;
     if negb (truthy jobResponse) then
       mret (text_content (VStr ("Error: Job with ID " +:+ jobId +:+ " not found.")))
     else
       applicationResponse ← createApplication
         {| jobId := jobId; firstName := firstName;
            lastName := lastName; email := email |};
       application ← get applicationResponse "data";
       application_id ← get application "id";
       job ← get jobResponse "data";
       attributes ← get job "attributes";
       title ← get attributes "title";
       mret (text_content (VStr (
         "Application submitted successfully! Application ID: " +:+ to_string application_id
         +:+ nl +:+ nl +:+ "Job: " +:+ to_string title
         +:+ nl +:+ "Applicant: " +:+ firstName +:+ " " +:+ lastName
         +:+ nl +:+ "Email: " +:+ email))))
    (λ error,
       mret (text_content (VStr ("Error creating application: " +:+ message_or_unknown error)))).

Definition get_applications_handler (jobId jobVisibility stageId : option string)
    (page perPage : option Z) : Async Mcp.ToolResult :=
  try_catch
    (response ← getApplications {| ApplicationFilters.job_id := jobId;
                                   ApplicationFilters.job_visibility := jobVisibility;
                                   ApplicationFilters.stage_id := stageId;
                                   ApplicationFilters.page := page;
                                   ApplicationFilters.per_page := perPage |};
     meta ← get response "meta";
     let count := get_opt (get_opt (get_opt meta "stats") "total") "count" in
     applications ← get response "data";
     mret (text_content (VStr (
       "Found " +:+ to_string count +:+ " applications:" +:+ nl +:+ nl
       +:+ to_string (JSON_stringify applications)))))
    (λ error,
       mret (text_content (VStr ("Error fetching applications: " +:+ message_or_unknown error)))).

Definition get_application_by_id_handler (id : string) : Async Mcp.ToolResult :=
  try_catch
    (response ← getApplicationById id;
     application ← get response "data";
     mret (text_content (JSON_stringify application)))
    (λ error,
       mret (text_content (VStr ("Error fetching application: " +:+ message_or_unknown error)))).

Definition parse_cv_from_url_handler (url : string) : Async Mcp.ToolResult :=
  try_catch
    (pdfData ← parsePdfFromUrl url;
     mret (text_content (VStr pdfData)))
    (λ error,
       mret (text_content (VStr ("Error parsing CV from URL: " +:+ message_or_unknown error)))).

End Handlers.

(** ** Startup configuration (main.ts) *)

(** [process.env.NAME] in the environment left by [dotenv.config()]. *)
Definition process_env (env : gmap string string) (name : string) : value :=
  match env !! name with
  | Some s => VStr s
  | None => VUndefined
  end.

(** The two checks made before the server is built: [Some e] is the error
    thrown at start-up, [None] lets the module go on. *)
Definition check_configuration (env : gmap string string) : option error :=
  let PINPOINT_API_KEY := process_env env "PINPOINT_API_KEY" in
  let PINPOINT_SUBDOMAIN := process_env env "PINPOINT_SUBDOMAIN" in
  if negb (truthy PINPOINT_API_KEY) then
    Some (Error "PINPOINT_API_KEY environment variable is required")
  else if negb (truthy PINPOINT_SUBDOMAIN) then
    Some (Error "PINPOINT_SUBDOMAIN environment variable is required")
  else None.

(** The adapter's [BASE_URL] template. *)
Definition BASE_URL (env : gmap string string) : string :=
  "https://" +:+ to_string (process_env env "PINPOINT_SUBDOMAIN") +:+ ".pinpointhq.com/api/v1".

(** ** The [quick-application-submit] prompt (main.ts) *)

Module Prompt.
End Prompt.

(** [s.split(sep)] for a one-character separator: the pieces between the
    occurrences of [sep], empty pieces included; never an empty array. *)
Fixpoint String_split (sep : Ascii.ascii) (s : string) : list string :=
  match s with
  | EmptyString => [""]
  | String c rest =>
      if Ascii.eqb c sep then "" :: String_split sep rest
      else match String_split sep rest with
           | piece :: pieces => String c piece :: pieces
           | [] => [String c ""]
           end
  end.

Definition space : Ascii.ascii := Ascii.ascii_of_nat 32.

(** [const [firstName, ...lastNameParts] = candidateName.split(' ');
     const lastName = lastNameParts.join(' ') || '';] *)
Definition candidate_names (candidateName : string) : value * string :=
  let parts := String_split space candidateName in
  let firstName := match parts with first :: _ => VStr first | [] => VUndefined end in
  let lastNameParts := tail parts in
  let lastName := to_string (or_else (VStr (join " " lastNameParts)) (VStr "")) in
  (firstName, lastName).


(** ** Vocabulary of the specification *)

(** What a computation adds to the trace, and the requests among it. *)
Definition new_events {A : Type} (m : Async A) (w : World) (tr : list event) : list event :=
  drop (length tr) (m w tr).2.

Definition requests (evs : list event) : list request :=
  omap (λ e, match e with Sent r => Some r | _ => None end) evs.

(** A field is present when the filter object has it, whatever its value;
    it carries a value when that value is not falsy (a non-empty string, a
    non-zero number). *)
Definition present {T : Type} (field : option T) : bool :=
  match field with Some _ => true | None => false end.

Definition carries_string (field : option string) : bool :=
  match field with Some s => negb (String.eqb s "") | None => false end.

Definition carries_number (field : option Z) : bool :=
  match field with Some n => negb (n =? 0)%Z | None => false end.

Definition key_if (b : bool) (key : string) : gset string :=
  if b then {[ key ]} else ∅.

(** The query keys of the fields of a job filter that are present ... *)
Definition jobs_present_keys (f : JobFilters.t) : gset string :=
  key_if (present (JobFilters.search f)) "filter[search]"
  ∪ key_if (present (JobFilters.status f)) "filter[status]"
  ∪ key_if (present (JobFilters.employment_type f)) "filter[employment_type]"
  ∪ key_if (present (JobFilters.workplace_type f)) "filter[workplace_type]"
  ∪ key_if (present (JobFilters.page f)) "page[number]"
  ∪ key_if (present (JobFilters.per_page f)) "page[size]".

(** ... and of those that carry a value. *)
Definition jobs_carried_keys (f : JobFilters.t) : gset string :=
  key_if (carries_string (JobFilters.search f)) "filter[search]"
  ∪ key_if (carries_string (JobFilters.status f)) "filter[status]"
  ∪ key_if (carries_string (JobFilters.employment_type f)) "filter[employment_type]"
  ∪ key_if (carries_string (JobFilters.workplace_type f)) "filter[workplace_type]"
  ∪ key_if (carries_number (JobFilters.page f)) "page[number]"
  ∪ key_if (carries_number (JobFilters.per_page f)) "page[size]".

(** A job filter whose only field is an empty search term. *)
Definition empty_search : JobFilters.t :=
  {| JobFilters.search := Some ""; JobFilters.status := None;
     JobFilters.employment_type := None; JobFilters.workplace_type := None;
     JobFilters.page := None; JobFilters.per_page := None |}.

(** An application filter whose only field is an empty job id, and one
    whose only field is the page number 2. *)
Definition empty_job_id : ApplicationFilters.t :=
  {| ApplicationFilters.job_id := Some ""; ApplicationFilters.job_visibility := None;
     ApplicationFilters.stage_id := None; ApplicationFilters.page := None;
     ApplicationFilters.per_page := None |}.

Definition second_page : ApplicationFilters.t :=
  {| ApplicationFilters.job_id := None; ApplicationFilters.job_visibility := None;
     ApplicationFilters.stage_id := None; ApplicationFilters.page := Some 2%Z;
     ApplicationFilters.per_page := None |}.

(** The literal reading of C3: every present field of an application
    filter shows up in the query under the documented name, with its value. *)
Definition translated_one_to_one (f : ApplicationFilters.t) : Prop :=
  (∀ v, ApplicationFilters.job_id f = Some v →
        getApplications_params f !! "filter[job_id]" = Some v)
  ∧ (∀ v, ApplicationFilters.job_visibility f = Some v →
          getApplications_params f !! "filter[job_visibility]" = Some v)
  ∧ (∀ v, ApplicationFilters.stage_id f = Some v →
          getApplications_params f !! "filter[stage_id]" = Some v)
  ∧ (∀ n, ApplicationFilters.page f = Some n →
          getApplications_params f !! "page[number]" = Some (Number_toString n))
  ∧ (∀ n, ApplicationFilters.per_page f = Some n →
          getApplications_params f !! "page[size]" = Some (Number_toString n)).

(** A [get-jobs] call without any argument. *)
Definition no_arguments : JobFilters.t :=
  {| JobFilters.search := None; JobFilters.status := None;
     JobFilters.employment_type := None; JobFilters.workplace_type := None;
     JobFilters.page := None; JobFilters.per_page := None |}.

(** Callbacks of the PDF parser: an item with a text, the terminal null
    item, a parser error. *)
Definition text_item (t : string) : callback :=
  {| err := VNull; item := Some {| text := Some t |} |}.

Definition end_of_stream : callback := {| err := VNull; item := None |}.

Definition parser_error (e : value) : callback := {| err := e; item := None |}.

(** A callback that reports no error and hands over a parsed item; one
    that reports no error and hands over the terminal null item. *)
Definition is_item (cb : callback) : bool :=
  negb (truthy (err cb)) && present (item cb).

Definition is_terminal (cb : callback) : bool :=
  negb (truthy (err cb)) && negb (present (item cb)).

(** The text fragment a callback carries, if any: the [text] of its item
    when that is a non-empty string. *)
Definition fragment (cb : callback) : option string :=
  it ← item cb;
  t ← text it;
  if String.eqb t "" then None else Some t.

Definition fragments (cbs : list callback) : list string := omap fragment cbs.

(** The literal reading of C8: an accumulator to which every fragment,
    followed by one space, is appended. *)
Definition spaced_accumulator (frags : list string) : string :=
  fold_left (λ acc t, acc +:+ t +:+ " ") frags "".

Definition resolves_with_spaced_accumulator (w : World) (buffer : list Byte.byte) : Prop :=
  ∀ cbs last tr,
    PdfReader_parseBuffer w buffer = cbs ++ [last] →
    Forall (λ cb, is_item cb = true) cbs →
    is_terminal last = true →
    (extractTextFromPdf buffer w tr).1 = Fulfilled (spaced_accumulator (fragments cbs)).

(** Worlds for the PDF utility: the download of any URL is answered by
    [r], the parser makes the callbacks [cbs] for any buffer. *)
Definition pdf_world (r : reply (list Byte.byte)) (cbs : list callback) : World :=
  {| upstream := λ _ _, NetworkFailure "offline";
     web := λ _ _, r;
     PdfReader_parseBuffer := λ _, cbs |}.

(** An upstream that knows no job: every GET is answered 404 with a
    JSON:API error document; a POST would be accepted. *)
Definition no_jobs : World :=
  {| upstream := λ _ r,
       match r with
       | ApiGet _ _ =>
           Http 404 (VObj [("errors", VArr [VObj [("status", VStr "404");
                                                  ("title", VStr "Not Found")]])])
       | ApiPost _ _ => Http 201 (VObj [("data", VObj [("id", VStr "1")])])
       end;
     web := λ _ _, NetworkFailure "offline";
     PdfReader_parseBuffer := λ _, [] |}.

(** The application of the specification's example. *)
Definition ada : MinimalApplicationData :=
  {| firstName := "Ada"; lastName := "Lovelace"; email := "ada@example.com"; jobId := "42" |}.
(** The [console.error] lines among some events. *)
Definition console_errors (evs : list event) : list (list value) :=
  omap (λ e, match e with ConsoleError args => Some args | _ => None end) evs.





(** The failure policy of an adapter call [run] that sends [r] and logs
    under [label]: a 2xx reply is handed back as its body, without a log
    line; any other status rejects with "Request failed with status code N"
    and a network failure with the transport's message, in both cases after
    exactly one [console.error] line showing the reply's body when it is
    truthy and the message otherwise. *)
Definition passes_through_or_rethrows (run : Async value) (r : request) (label : string)
    (w : World) (tr : list event) : Prop :=
  match upstream w tr r with
  | Http status body =>
      if validateStatus status then
        (run w tr).1 = Fulfilled body ∧ console_errors (new_events run w tr) = []
      else
        (run w tr).1 = Rejected {| message := "Request failed with status code "
                                               +:+ Number_toString status;
                                   response_data := Some body |}
        ∧ console_errors (new_events run w tr)
          = [[VStr label;
              if truthy body
              then body
              else VStr ("Request failed with status code " +:+ Number_toString status)]]
  | NetworkFailure reason =>
      (run w tr).1 = Rejected {| message := reason; response_data := None |}
      ∧ console_errors (new_events run w tr) = [[VStr label; VStr reason]]
  end.

(** A creation reply from which [applicationResponse.data.id] cannot be
    read: anything but an object whose [data] is neither [undefined] nor
    [null]. *)
Definition lacks_data (created : value) : bool :=
  match created with
  | VObj fields =>
      match field "data" fields with
      | VUndefined | VNull => true
      | _ => false
      end
  | _ => true
  end.

(** A world whose upstream answers by [answer], whatever came before. *)
Definition rest_world (answer : request → reply value) : World :=
  {| upstream := λ _, answer;
     web := λ _ _, NetworkFailure "offline";
     PdfReader_parseBuffer := λ _, [] |}.

(** An upstream with one open job, 42, that accepts applications. *)
Definition hiring : World :=
  rest_world (λ r,
    match r with
    | ApiGet _ _ =>
        Http 200 (VObj [("data", VObj [("id", VStr "42");
                                       ("attributes", VObj [("title", VStr "Engineer")])])])
    | ApiPost _ _ => Http 201 (VObj [("data", VObj [("id", VStr "7")])])
    end).

(** An upstream with one open job that accepts an application with
    "204 No Content", which axios delivers as the empty string. *)
Definition hiring_without_content : World :=
  rest_world (λ r,
    match r with
    | ApiGet _ _ =>
        Http 200 (VObj [("data", VObj [("id", VStr "42");
                                       ("attributes", VObj [("title", VStr "Engineer")])])])
    | ApiPost _ _ => Http 204 (VStr "")
    end).

(** An upstream that lists no application but counts two. *)
Definition two_applications : World :=
  rest_world (λ _,
    Http 200 (VObj [("data", VArr []);
                    ("meta", VObj [("stats", VObj [("total", VObj [("count", VNum 2)])])])])).

(** The [console.error] line of the PDF callback for a callback that
    reports an error. *)
Definition parser_error_line (cb : callback) : event :=
  ConsoleError [VStr "PDF parsing error:"; err cb].

(** * Properties *)

(** ** Strings *)

Lemma append_empty_r (s : string) : s +:+ "" = s.
Proof.
  induction s as [|c s IH]; [done|].
  change (String c (s +:+ "") = String c s). by rewrite IH.
Qed.

Lemma includes_suffix (prefix s : string) : Includes s (prefix +:+ s).
Proof. exists prefix, "". by rewrite append_empty_r. Qed.

Lemma prefix_append (sub rest : string) : String.prefix sub (sub +:+ rest) = true.
Proof.
  induction sub as [|c sub IH]; [by destruct rest|].
  change (String.prefix (String c sub) (String c (sub +:+ rest)) = true).
  simpl. by destruct (Ascii.ascii_dec c c).
Qed.

Lemma includes_prefix (sub s : string) : String.prefix sub s = true → includes sub s = true.
Proof. intros Hprefix. destruct s; cbn [includes]; by rewrite Hprefix. Qed.

(** The test [includes] finds every occurrence. *)
Lemma includes_complete (sub s : string) : Includes sub s → includes sub s = true.
Proof.
  intros (a & b & ->).
  induction a as [|c a IH].
  - change (includes sub (sub +:+ b) = true). apply includes_prefix, prefix_append.
  - change (includes sub (String c (a +:+ sub +:+ b)) = true).
    cbn [includes]. rewrite IH. apply orb_true_r.
Qed.

(** ** Runs of the adapter's calls *)

Lemma new_events_app {A : Type} (m : Async A) w tr (evs : list event) :
  (m w tr).2 = tr ++ evs → new_events m w tr = evs.
Proof. unfold new_events. intros ->. by rewrite drop_app_length. Qed.

(** A call through [api.get] wrapped in the adapter's try/catch: the
    request goes out once; a rejection is logged and passed on. *)
Lemma adapter_get_run path params label w tr :
  try_catch
    (response ← api_get path params; mret (data response))
    (λ error, console_error [VStr label; diagnostic error];; throw error) w tr
  = match settle id (upstream w tr (ApiGet path params)) with
    | Fulfilled r => (Fulfilled (data r), tr ++ [Sent (ApiGet path params)])
    | Rejected e =>
        (Rejected e, tr ++ [Sent (ApiGet path params); ConsoleError [VStr label; diagnostic e]])
    | Pending => (Pending, tr ++ [Sent (ApiGet path params)])
    end.
Proof.
  unfold try_catch, mbind, Async_bind, api_get, mret, Async_ret, console_error, throw.
  simpl. destruct (settle id _); simpl; try done.
  by rewrite <- app_assoc.
Qed.

Lemma adapter_post_run path body label w tr :
  try_catch
    (response ← api_post path body; mret (data response))
    (λ error, console_error [VStr label; diagnostic error];; throw error) w tr
  = match settle id (upstream w tr (ApiPost path body)) with
    | Fulfilled r => (Fulfilled (data r), tr ++ [Sent (ApiPost path body)])
    | Rejected e =>
        (Rejected e, tr ++ [Sent (ApiPost path body); ConsoleError [VStr label; diagnostic e]])
    | Pending => (Pending, tr ++ [Sent (ApiPost path body)])
    end.
Proof.
  unfold try_catch, mbind, Async_bind, api_post, mret, Async_ret, console_error, throw.
  simpl. destruct (settle id _); simpl; try done.
  by rewrite <- app_assoc.
Qed.

Lemma bind_run {A B : Type} (m : Async A) (k : A → Async B) w tr :
  (m ≫= k) w tr
  = match m w tr with
    | (Fulfilled a, tr') => k a w tr'
    | (Rejected e, tr') => (Rejected e, tr')
    | (Pending, tr') => (Pending, tr')
    end.
Proof. reflexivity. Qed.

Lemma try_catch_run {A : Type} (m : Async A) (h : error → Async A) w tr :
  try_catch m h w tr
  = match m w tr with
    | (Rejected e, tr') => h e w tr'
    | r => r
    end.
Proof. reflexivity. Qed.

(** Post-processing a result adds nothing to the trace. *)
Lemma map_result_run {A B : Type} (m : Async A) (g : A → B) w tr :
  (x ← m; mret (g x)) w tr
  = match m w tr with
    | (Fulfilled a, tr') => (Fulfilled (g a), tr')
    | (Rejected e, tr') => (Rejected e, tr')
    | (Pending, tr') => (Pending, tr')
    end.
Proof.
  unfold mbind, Async_bind, mret, Async_ret.
  by destruct (m w tr) as [[a|e|] tr'].
Qed.

Lemma map_result_events {A B : Type} (m : Async A) (g : A → B) w tr :
  new_events (x ← m; mret (g x)) w tr = new_events m w tr.
Proof.
  unfold new_events. rewrite map_result_run.
  by destruct (m w tr) as [[a|e|] tr'].
Qed.

(** Whatever the reply, such a call sends exactly one request. *)
Lemma adapter_get_requests path params label w tr :
  requests (new_events
    (try_catch
       (response ← api_get path params; mret (data response))
       (λ error, console_error [VStr label; diagnostic error];; throw error)) w tr)
  = [ApiGet path params].
Proof.
  unfold new_events. rewrite adapter_get_run.
  destruct (settle id _); simpl; by rewrite drop_app_length.
Qed.

Lemma adapter_post_requests path body label w tr :
  requests (new_events
    (try_catch
       (response ← api_post path body; mret (data response))
       (λ error, console_error [VStr label; diagnostic error];; throw error)) w tr)
  = [ApiPost path body].
Proof.
  unfold new_events. rewrite adapter_post_run.
  destruct (settle id _); simpl; by rewrite drop_app_length.
Qed.

(** ** Query parameters *)

Lemma dom_assign_string key field (params : gmap string string) :
  dom (assign_string key field params) = key_if (carries_string field) key ∪ dom params.
Proof.
  unfold assign_string, carries_string, key_if.
  destruct field as [s|]; simpl; [|set_solver].
  destruct (String.eqb s ""); simpl; [set_solver|].
  by rewrite dom_insert_L.
Qed.

Lemma dom_assign_number key field (params : gmap string string) :
  dom (assign_number key field params) = key_if (carries_number field) key ∪ dom params.
Proof.
  unfold assign_number, carries_number, key_if.
  destruct field as [n|]; simpl; [|set_solver].
  destruct (n =? 0)%Z; simpl; [set_solver|].
  by rewrite dom_insert_L.
Qed.

Lemma lookup_assign_string_ne key key' field (params : gmap string string) :
  key ≠ key' → assign_string key field params !! key' = params !! key'.
Proof.
  intros Hne. unfold assign_string.
  destruct field as [s|]; [|done].
  destruct (truthy (VStr s)); [|done].
  by rewrite lookup_insert_ne.
Qed.

Lemma lookup_assign_number_ne key key' field (params : gmap string string) :
  key ≠ key' → assign_number key field params !! key' = params !! key'.
Proof.
  intros Hne. unfold assign_number.
  destruct field as [n|]; [|done].
  destruct (truthy (VNum n)); [|done].
  by rewrite lookup_insert_ne.
Qed.

Lemma lookup_assign_string key field (params : gmap string string) :
  assign_string key field params !! key =
  if carries_string field then field else params !! key.
Proof.
  unfold assign_string, carries_string.
  destruct field as [s|]; [|done]. simpl.
  destruct (String.eqb s ""); simpl; [done|].
  by rewrite lookup_insert_eq.
Qed.

Lemma lookup_assign_number key field (params : gmap string string) :
  assign_number key field params !! key =
  if carries_number field then Number_toString <$> field else params !! key.
Proof.
  unfold assign_number, carries_number.
  destruct field as [n|]; [|done]. simpl.
  destruct (n =? 0)%Z; simpl; [done|].
  by rewrite lookup_insert_eq.
Qed.

Ltac other_key := first [ rewrite lookup_assign_string_ne by done
                        | rewrite lookup_assign_number_ne by done
                        | rewrite lookup_insert_ne by done ].

(** The value [getJobs] sends under each key. *)
Lemma getJobs_params_lookup (f : JobFilters.t) :
  getJobs_params f !! "filter[search]"
    = (if carries_string (JobFilters.search f) then JobFilters.search f else None)
  ∧ getJobs_params f !! "filter[status]"
    = (if carries_string (JobFilters.status f) then JobFilters.status f else None)
  ∧ getJobs_params f !! "filter[employment_type]"
    = (if carries_string (JobFilters.employment_type f) then JobFilters.employment_type f else None)
  ∧ getJobs_params f !! "filter[workplace_type]"
    = (if carries_string (JobFilters.workplace_type f) then JobFilters.workplace_type f else None)
  ∧ getJobs_params f !! "page[number]"
    = (if carries_number (JobFilters.page f) then Number_toString <$> JobFilters.page f else None)
  ∧ getJobs_params f !! "page[size]"
    = (if carries_number (JobFilters.per_page f) then Number_toString <$> JobFilters.per_page f else None).
Proof.
  unfold getJobs_params.
  repeat split; repeat other_key;
    first [ rewrite lookup_assign_string | rewrite lookup_assign_number ];
    repeat other_key; by rewrite lookup_empty.
Qed.

(** The value [getApplications] sends under each key it can write. *)
Lemma getApplications_params_lookup (f : ApplicationFilters.t) :
  getApplications_params f !! "filter[job_id]"
    = (if carries_string (ApplicationFilters.job_id f) then ApplicationFilters.job_id f else None)
  ∧ getApplications_params f !! "filter[job_visibility]"
    = (if carries_string (ApplicationFilters.job_visibility f)
       then ApplicationFilters.job_visibility f else None)
  ∧ getApplications_params f !! "filter[stage_id]"
    = (if carries_string (ApplicationFilters.stage_id f) then ApplicationFilters.stage_id f else None)
  ∧ getApplications_params f !! "page"
    = (if carries_number (ApplicationFilters.page f)
       then Number_toString <$> ApplicationFilters.page f else None)
  ∧ getApplications_params f !! "per_page"
    = (if carries_number (ApplicationFilters.per_page f)
       then Number_toString <$> ApplicationFilters.per_page f else None)
  ∧ getApplications_params f !! "extra_fields[applications]" = Some "attachments"
  ∧ getApplications_params f !! "stats[total]" = Some "count".
Proof.
  unfold getApplications_params.
  repeat split; repeat other_key;
    first [ rewrite lookup_assign_string | rewrite lookup_assign_number | by rewrite lookup_insert_eq ];
    repeat other_key; by rewrite lookup_empty.
Qed.

Lemma getApplications_params_dom (f : ApplicationFilters.t) :
  dom (getApplications_params f) =
    key_if (carries_string (ApplicationFilters.job_id f)) "filter[job_id]"
    ∪ key_if (carries_string (ApplicationFilters.job_visibility f)) "filter[job_visibility]"
    ∪ key_if (carries_string (ApplicationFilters.stage_id f)) "filter[stage_id]"
    ∪ key_if (carries_number (ApplicationFilters.page f)) "page"
    ∪ key_if (carries_number (ApplicationFilters.per_page f)) "per_page"
    ∪ {[ "extra_fields[applications]"; "stats[total]" ]}.
Proof.
  unfold getApplications_params.
  rewrite !dom_insert_L, !dom_assign_number, !dom_assign_string, dom_empty_L.
  set_solver.
Qed.

(** C4, as stated, fails: an empty search term is present in the filter
    object, yet [getJobs] builds no [filter[search]] parameter for it. *)
Lemma getJobs_present_keys_counterexample :
  dom (getJobs_params empty_search) ≠ jobs_present_keys empty_search.
Proof. vm_compute. discriminate. Qed.

(** C4 (amended): for every filter object passed to [getJobs], the keys of
    the resulting query-parameter map are exactly the bracket-syntax keys of
    the fields that are present with a non-falsy value (a non-empty string,
    a non-zero number), and there is no key for any absent field. *)
Theorem getJobs_params_keys (f : JobFilters.t) :
  dom (getJobs_params f) = jobs_carried_keys f
  ∧ (JobFilters.search f = None → getJobs_params f !! "filter[search]" = None)
  ∧ (JobFilters.status f = None → getJobs_params f !! "filter[status]" = None)
  ∧ (JobFilters.employment_type f = None → getJobs_params f !! "filter[employment_type]" = None)
  ∧ (JobFilters.workplace_type f = None → getJobs_params f !! "filter[workplace_type]" = None)
  ∧ (JobFilters.page f = None → getJobs_params f !! "page[number]" = None)
  ∧ (JobFilters.per_page f = None → getJobs_params f !! "page[size]" = None).
Proof.
  split.
  - unfold getJobs_params, jobs_carried_keys.
    rewrite !dom_assign_number, !dom_assign_string, dom_empty_L.
    set_solver.
  - destruct (getJobs_params_lookup f) as (H1 & H2 & H3 & H4 & H5 & H6).
    repeat split; intros Habsent.
    + by rewrite H1, Habsent.
    + by rewrite H2, Habsent.
    + by rewrite H3, Habsent.
    + by rewrite H4, Habsent.
    + by rewrite H5, Habsent.
    + by rewrite H6, Habsent.
Qed.

Lemma getJobs_params_keys_witness :
  dom (getJobs_params empty_search) = jobs_carried_keys empty_search
  ∧ getJobs_params empty_search !! "filter[status]" = None
  ∧ getJobs_params empty_search !! "page[number]" = None.
Proof.
  destruct (getJobs_params_keys empty_search) as (Hdom & _ & Hstatus & _ & _ & Hpage & _).
  split; [exact Hdom|].
  split; [apply Hstatus; reflexivity | apply Hpage; reflexivity].
Defined.

(** C3, as stated, fails: a job id that is present but empty is not
    translated into any query pair. *)
Lemma getApplications_one_to_one_counterexample :
  ¬ translated_one_to_one empty_job_id.
Proof.
  intros (Hjob & _).
  specialize (Hjob "" eq_refl). vm_compute in Hjob. discriminate.
Qed.

(** The page number of an application filter goes out under the key
    [page], not [page[number]] as in [getJobs]. *)
Lemma getApplications_page_key :
  getApplications_params second_page !! "page" = Some "2"
  ∧ getApplications_params second_page !! "page[number]" = None
  ∧ ¬ translated_one_to_one second_page.
Proof.
  split; [reflexivity|]. split; [reflexivity|].
  intros (_ & _ & _ & Hpage & _).
  specialize (Hpage 2%Z eq_refl). vm_compute in Hpage. discriminate.
Qed.

(** C3 (amended): for every filter object passed to [getApplications],
    each of the fields [job_id], [job_visibility] and [stage_id] that is
    present with a non-empty value is translated into the query pair
    [filter[<name>]] = value, and these keys carry nothing else. *)
Theorem getApplications_filter_fields (f : ApplicationFilters.t) (v : string) :
  (getApplications_params f !! "filter[job_id]" = Some v
     ↔ ApplicationFilters.job_id f = Some v ∧ v ≠ "")
  ∧ (getApplications_params f !! "filter[job_visibility]" = Some v
     ↔ ApplicationFilters.job_visibility f = Some v ∧ v ≠ "")
  ∧ (getApplications_params f !! "filter[stage_id]" = Some v
     ↔ ApplicationFilters.stage_id f = Some v ∧ v ≠ "").
Proof.
  destruct (getApplications_params_lookup f) as (H1 & H2 & H3 & _).
  rewrite H1, H2, H3. clear H1 H2 H3.
  assert (Hfield : ∀ field : option string,
             (if carries_string field then field else None) = Some v
             ↔ field = Some v ∧ v ≠ "").
  { intros [s|]; simpl; [|naive_solver].
    destruct (String.eqb_spec s ""); simpl; naive_solver. }
  auto.
Qed.

(** C7: whatever the filter object holds, the query parameters of
    [getApplications] include [extra_fields[applications]=attachments] and
    [stats[total]=count], and these are the parameters of the one request
    it sends. *)
Theorem getApplications_fixed_parameters (f : ApplicationFilters.t) :
  getApplications_params f !! "extra_fields[applications]" = Some "attachments"
  ∧ getApplications_params f !! "stats[total]" = Some "count"
  ∧ ∀ w tr, requests (new_events (getApplications f) w tr)
            = [ApiGet "/applications" (getApplications_params f)].
Proof.
  destruct (getApplications_params_lookup f) as (_ & _ & _ & _ & _ & H6 & H7).
  split; [done|]. split; [done|].
  intros w tr. apply adapter_get_requests.
Qed.

(** C10: in [getJobs] and in [getApplications], a field that is present
    with a falsy value (the empty string, the number 0) produces no query
    parameter, and the call is the very call made with the field absent. *)
Theorem falsy_field_like_absent :
  (∀ s st et wt p pp,
     getJobs (JobFilters.Build_t (Some "") st et wt p pp) = getJobs (JobFilters.Build_t None st et wt p pp)
     ∧ getJobs (JobFilters.Build_t s (Some "") et wt p pp) = getJobs (JobFilters.Build_t s None et wt p pp)
     ∧ getJobs (JobFilters.Build_t s st (Some "") wt p pp) = getJobs (JobFilters.Build_t s st None wt p pp)
     ∧ getJobs (JobFilters.Build_t s st et (Some "") p pp) = getJobs (JobFilters.Build_t s st et None p pp)
     ∧ getJobs (JobFilters.Build_t s st et wt (Some 0%Z) pp) = getJobs (JobFilters.Build_t s st et wt None pp)
     ∧ getJobs (JobFilters.Build_t s st et wt p (Some 0%Z)) = getJobs (JobFilters.Build_t s st et wt p None)
     ∧ getJobs_params (JobFilters.Build_t (Some "") st et wt p pp) !! "filter[search]" = None
     ∧ getJobs_params (JobFilters.Build_t s (Some "") et wt p pp) !! "filter[status]" = None
     ∧ getJobs_params (JobFilters.Build_t s st (Some "") wt p pp) !! "filter[employment_type]" = None
     ∧ getJobs_params (JobFilters.Build_t s st et (Some "") p pp) !! "filter[workplace_type]" = None
     ∧ getJobs_params (JobFilters.Build_t s st et wt (Some 0%Z) pp) !! "page[number]" = None
     ∧ getJobs_params (JobFilters.Build_t s st et wt p (Some 0%Z)) !! "page[size]" = None)
  ∧ (∀ j v sg p pp,
     getApplications (ApplicationFilters.Build_t (Some "") v sg p pp)
       = getApplications (ApplicationFilters.Build_t None v sg p pp)
     ∧ getApplications (ApplicationFilters.Build_t j (Some "") sg p pp)
       = getApplications (ApplicationFilters.Build_t j None sg p pp)
     ∧ getApplications (ApplicationFilters.Build_t j v (Some "") p pp)
       = getApplications (ApplicationFilters.Build_t j v None p pp)
     ∧ getApplications (ApplicationFilters.Build_t j v sg (Some 0%Z) pp)
       = getApplications (ApplicationFilters.Build_t j v sg None pp)
     ∧ getApplications (ApplicationFilters.Build_t j v sg p (Some 0%Z))
       = getApplications (ApplicationFilters.Build_t j v sg p None)
     ∧ getApplications_params (ApplicationFilters.Build_t (Some "") v sg p pp) !! "filter[job_id]" = None
     ∧ getApplications_params (ApplicationFilters.Build_t j (Some "") sg p pp) !! "filter[job_visibility]" = None
     ∧ getApplications_params (ApplicationFilters.Build_t j v (Some "") p pp) !! "filter[stage_id]" = None
     ∧ getApplications_params (ApplicationFilters.Build_t j v sg (Some 0%Z) pp) !! "page" = None
     ∧ getApplications_params (ApplicationFilters.Build_t j v sg p (Some 0%Z)) !! "per_page" = None).
Proof.
  split.
  - intros s st et wt p pp.
    repeat apply conj; try reflexivity.
    all: match goal with
         | |- getJobs_params ?f !! _ = None =>
             destruct (getJobs_params_lookup f) as (H1 & H2 & H3 & H4 & H5 & H6);
               first [exact H1 | exact H2 | exact H3 | exact H4 | exact H5 | exact H6]
         end.
  - intros j v sg p pp.
    repeat apply conj; try reflexivity.
    all: match goal with
         | |- getApplications_params ?f !! _ = None =>
             destruct (getApplications_params_lookup f) as (H1 & H2 & H3 & H4 & H5 & _);
               first [exact H1 | exact H2 | exact H3 | exact H4 | exact H5]
         end.
Qed.

(** ** The request body of [createApplication] *)

(** C5: for Ada Lovelace applying to job 42, [createApplication] builds
    the JSON:API document of the specification, and for every input it
    posts to [/applications] the document of that shape with the four
    input fields substituted, and nothing else. *)
Theorem createApplication_body :
  applicationData ada
  = VObj [("data", VObj [
      ("type", VStr "applications");
      ("attributes", VObj [("first_name", VStr "Ada");
                           ("last_name", VStr "Lovelace");
                           ("email", VStr "ada@example.com")]);
      ("relationships", VObj [("job", VObj [("data", VObj [("type", VStr "jobs");
                                                           ("id", VStr "42")])])])])]
  ∧ ∀ first last mail job w tr,
      requests (new_events
        (createApplication {| firstName := first; lastName := last; email := mail; jobId := job |})
        w tr)
      = [ApiPost "/applications"
           (VObj [("data", VObj [
              ("type", VStr "applications");
              ("attributes", VObj [("first_name", VStr first);
                                   ("last_name", VStr last);
                                   ("email", VStr mail)]);
              ("relationships", VObj [("job", VObj [("data", VObj [("type", VStr "jobs");
                                                                   ("id", VStr job)])])])])])].
Proof.
  split; [reflexivity|].
  intros first last mail job w tr.
  unfold createApplication. by rewrite adapter_post_requests.
Qed.

(** ** Defaults of [get-jobs] *)

(** C9: when a [get-jobs] invocation omits [page] and [per_page], the
    arguments the handler passes to the adapter have [page = 1] and
    [per_page = 20], and the one request sent carries [page[number]=1] and
    [page[size]=20]. *)
Theorem get_jobs_defaults (JSON_stringify : value → value) (input : JobFilters.t)
    (call : Async Mcp.ToolResult) :
  JobFilters.page input = None →
  JobFilters.per_page input = None →
  get_jobs_tool JSON_stringify input = Some call →
  ∃ args,
    get_jobs_schema input = Some args
    ∧ JobFilters.page args = Some 1%Z
    ∧ JobFilters.per_page args = Some 20%Z
    ∧ ∀ w tr, ∃ params,
        requests (new_events call w tr) = [ApiGet "/jobs" params]
        ∧ params !! "page[number]" = Some "1"
        ∧ params !! "page[size]" = Some "20".
Proof.
  intros Hpage Hper Hcall. unfold get_jobs_tool in Hcall.
  destruct (get_jobs_schema input) as [args|] eqn:Hschema; [|done].
  simpl in Hcall. injection Hcall as <-.
  assert (JobFilters.page args = Some 1%Z ∧ JobFilters.per_page args = Some 20%Z) as [H1 H20].
  { unfold get_jobs_schema in Hschema. rewrite Hpage, Hper in Hschema.
    destruct (_ && _); [|done]. simpl in Hschema. by injection Hschema as <-. }
  exists args. repeat apply conj; try done.
  intros w tr.
  set (f := {| JobFilters.search := JobFilters.search args;
               JobFilters.status := JobFilters.status args;
               JobFilters.employment_type := JobFilters.employment_type args;
               JobFilters.workplace_type := JobFilters.workplace_type args;
               JobFilters.page := JobFilters.page args;
               JobFilters.per_page := JobFilters.per_page args |}).
  exists (getJobs_params f). split.
  - unfold get_jobs_handler. fold f. rewrite map_result_events.
    unfold getJobs. apply adapter_get_requests.
  - destruct (getJobs_params_lookup f) as (_ & _ & _ & _ & H5 & H6).
    rewrite H5, H6. subst f. simpl. by rewrite H1, H20.
Qed.

Lemma get_jobs_defaults_witness :
  ∃ args,
    get_jobs_schema no_arguments = Some args
    ∧ JobFilters.page args = Some 1%Z
    ∧ JobFilters.per_page args = Some 20%Z.
Proof.
  destruct (get_jobs_defaults (λ _, VUndefined) no_arguments
              (get_jobs_handler (λ _, VUndefined) None None None None (Some 1%Z) (Some 20%Z))
              eq_refl eq_refl eq_refl) as (args & Hschema & Hpage & Hper & _).
  exists args. auto.
Defined.

(** ** The PDF text extractor *)

(** Once the promise is resolved, later callbacks do not change its value. *)
Lemma on_item_resolved st cb s :
  resolved st = Some s → resolved (on_item st cb) = Some s.
Proof.
  intros Hst. unfold on_item, resolve.
  destruct (truthy (err cb)); simpl.
  - by rewrite Hst.
  - destruct (item cb) as [it|].
    + destruct (text it) as [t|]; [|done].
      by destruct (String.eqb t "").
    + by rewrite Hst.
Qed.

Lemma fold_on_item_resolved cbs st s :
  resolved st = Some s → resolved (fold_left on_item cbs st) = Some s.
Proof.
  revert st. induction cbs as [|cb cbs IH]; intros st Hst; [done|].
  simpl. apply IH. by apply on_item_resolved.
Qed.

(** Items only collect text: nothing is resolved, nothing logged. *)
Lemma fold_on_item_items cbs st :
  Forall (λ cb, is_item cb = true) cbs →
  fold_left on_item cbs st
  = {| textItems := textItems st ++ fragments cbs;
       resolved := resolved st;
       logged := logged st |}.
Proof.
  intros Hitems. revert st.
  induction Hitems as [|cb cbs Hcb _ IH]; intros st.
  - simpl. rewrite app_nil_r. by destruct st.
  - simpl. rewrite IH. clear IH.
    unfold is_item in Hcb. apply andb_true_iff in Hcb as [Herr Hitem].
    apply negb_true_iff in Herr.
    unfold on_item, fragments, fragment. rewrite Herr. simpl.
    destruct (item cb) as [it|]; [|done]. simpl.
    destruct (text it) as [t|]; simpl; [|done].
    destruct (String.eqb t ""); simpl; [done|].
    by rewrite <- app_assoc.
Qed.

(** C8, as stated, fails: with the single fragment "a" the promise
    resolves with "a", not with "a" followed by a space. *)
Lemma extractTextFromPdf_trailing_space_counterexample :
  ¬ resolves_with_spaced_accumulator (pdf_world (NetworkFailure "unused") [text_item "a"; end_of_stream]) [].
Proof.
  intros Hclaim.
  specialize (Hclaim [text_item "a"] end_of_stream [] eq_refl).
  assert (Hitems : Forall (λ cb, is_item cb = true) [text_item "a"])
    by (repeat constructor).
  specialize (Hclaim Hitems eq_refl).
  vm_compute in Hclaim. discriminate.
Qed.

(** C8 (amended): for every sequence of parser callbacks made of items and
    ending in the terminal null item, [extractTextFromPdf] resolves with
    the text-carrying fragments (the items whose [text] is a non-empty
    string) in callback order, joined by single spaces: one space between
    consecutive fragments, none after the last. Nothing is logged. *)
Theorem extractTextFromPdf_joins_fragments (w : World) (buffer : list Byte.byte)
    (cbs : list callback) (last : callback) (tr : list event) :
  PdfReader_parseBuffer w buffer = cbs ++ [last] →
  Forall (λ cb, is_item cb = true) cbs →
  is_terminal last = true →
  extractTextFromPdf buffer w tr = (Fulfilled (join " " (fragments cbs)), tr).
Proof.
  intros Hparse Hitems Hlast.
  unfold extractTextFromPdf. rewrite Hparse, fold_left_app.
  rewrite (fold_on_item_items cbs) by done.
  simpl. unfold is_terminal in Hlast. apply andb_true_iff in Hlast as [Herr Hnull].
  apply negb_true_iff in Herr. unfold on_item. rewrite Herr.
  destruct (item last); [done|]. simpl.
  by rewrite app_nil_r.
Qed.

Lemma extractTextFromPdf_joins_fragments_witness :
  extractTextFromPdf []
    (pdf_world (NetworkFailure "unused") [text_item "Ada"; text_item ""; text_item "Lovelace"; end_of_stream]) []
  = (Fulfilled "Ada Lovelace", []).
Proof.
  apply (extractTextFromPdf_joins_fragments _ _ [text_item "Ada"; text_item ""; text_item "Lovelace"] end_of_stream).
  - reflexivity.
  - repeat constructor.
  - reflexivity.
Defined.

(** A parser error that comes before any terminal item resolves the
    promise with the sentinel, whatever follows. *)
Lemma extractTextFromPdf_parser_error w buffer pre failure post tr :
  PdfReader_parseBuffer w buffer = pre ++ failure :: post →
  Forall (λ cb, is_item cb = true) pre →
  truthy (err failure) = true →
  (extractTextFromPdf buffer w tr).1 = Fulfilled "Error extracting text from PDF".
Proof.
  intros Hparse Hitems Herr.
  unfold extractTextFromPdf. rewrite Hparse, fold_left_app.
  rewrite (fold_on_item_items pre) by done. simpl.
  erewrite fold_on_item_resolved; [done|].
  unfold on_item. by rewrite Herr.
Qed.

(** C6: when the download fails, [parsePdfFromUrl] rejects with an error
    whose message is "Failed to process PDF from URL: " followed by the
    message of the original failure; when the download succeeds and the
    parser reports an error before its terminal item, it resolves with the
    exact string "Error extracting text from PDF". *)
Theorem parsePdfFromUrl_failures (url : string) (w : World) (tr : list event) :
  (∀ e, (axios_get_arraybuffer url w tr).1 = Rejected e →
        ∃ e', (parsePdfFromUrl url w tr).1 = Rejected e'
              ∧ message e' = "Failed to process PDF from URL: " +:+ message e
              ∧ Includes (message e) (message e'))
  ∧ (∀ bytes pre failure post,
        (axios_get_arraybuffer url w tr).1 = Fulfilled {| data := bytes |} →
        PdfReader_parseBuffer w bytes = pre ++ failure :: post →
        Forall (λ cb, is_item cb = true) pre →
        truthy (err failure) = true →
        (parsePdfFromUrl url w tr).1 = Fulfilled "Error extracting text from PDF").
Proof.
  split.
  - intros e Hdownload.
    exists (Error ("Failed to process PDF from URL: " +:+ message e)).
    split; [|split; [done | apply includes_suffix]].
    unfold parsePdfFromUrl. rewrite try_catch_run, bind_run.
    destruct (axios_get_arraybuffer url w tr) as [o tr'].
    simpl in Hdownload. by subst o.
  - intros bytes pre failure post Hdownload Hparse Hitems Herr.
    unfold parsePdfFromUrl, Buffer_from. rewrite try_catch_run, bind_run.
    destruct (axios_get_arraybuffer url w tr) as [o tr'].
    simpl in Hdownload. subst o. rewrite map_result_run. cbn [data].
    pose proof (extractTextFromPdf_parser_error w bytes pre failure post tr'
                  Hparse Hitems Herr) as Hextract.
    destruct (extractTextFromPdf bytes w tr') as [o' tr''].
    simpl in Hextract. by subst o'.
Qed.

Lemma parsePdfFromUrl_failures_witness :
  (∃ e', (parsePdfFromUrl "https://example.com/cv.pdf" (pdf_world (Http 404 []) []) []).1 = Rejected e'
         ∧ message e' = "Failed to process PDF from URL: Request failed with status code 404")
  ∧ (parsePdfFromUrl "https://example.com/cv.pdf"
       (pdf_world (Http 200 []) [text_item "Curriculum"; parser_error (VStr "Invalid XRef stream")]) []).1
    = Fulfilled "Error extracting text from PDF".
Proof.
  split.
  - destruct (parsePdfFromUrl_failures "https://example.com/cv.pdf" (pdf_world (Http 404 []) []) [])
      as [Hreject _].
    destruct (Hreject {| message := "Request failed with status code 404";
                         response_data := Some (VObj []) |} eq_refl)
      as (e' & Hrun & Hmessage & _).
    exists e'. split; [exact Hrun | exact Hmessage].
  - destruct (parsePdfFromUrl_failures "https://example.com/cv.pdf"
                (pdf_world (Http 200 []) [text_item "Curriculum"; parser_error (VStr "Invalid XRef stream")]) [])
      as [_ Hresolve].
    apply (Hresolve [] [text_item "Curriculum"] (parser_error (VStr "Invalid XRef stream")) []).
    + reflexivity.
    + reflexivity.
    + repeat constructor.
    + reflexivity.
Defined.

(** ** Tool handlers and failures of the adapter *)

(** A handler whose catch block returns an envelope never rejects. *)
Lemma try_catch_envelope {A : Type} (m : Async A) (recover : error → A) w tr e :
  (try_catch m (λ error, mret (recover error)) w tr).1 ≠ Rejected e.
Proof.
  rewrite try_catch_run.
  by destruct (m w tr) as [[a|e'|] tr'].
Qed.

(** [create-application], [get-applications], [get-application-by-id] and
    [parse-cv-from-url] answer with an envelope whatever the adapter
    throws. *)
Lemma catching_handlers_never_reject (JSON_stringify : value → value) w tr e :
  (∀ jobId firstName lastName email,
     (create_application_handler jobId firstName lastName email w tr).1 ≠ Rejected e)
  ∧ (∀ jobId jobVisibility stageId page perPage,
       (get_applications_handler JSON_stringify jobId jobVisibility stageId page perPage w tr).1
       ≠ Rejected e)
  ∧ (∀ id, (get_application_by_id_handler JSON_stringify id w tr).1 ≠ Rejected e)
  ∧ (∀ url, (parse_cv_from_url_handler url w tr).1 ≠ Rejected e).
Proof. repeat apply conj; intros; apply try_catch_envelope. Qed.

(** What [create-application] does when the job lookup is rejected: the
    catch block answers, and no application is posted. *)
Lemma create_application_job_lookup_rejected jobId firstName lastName email w tr e :
  settle id (upstream w tr (ApiGet ("/jobs/" +:+ jobId) ∅)) = Rejected e →
  create_application_handler jobId firstName lastName email w tr
  = (Fulfilled (text_content (VStr ("Error creating application: " +:+ message_or_unknown e))),
     tr ++ [Sent (ApiGet ("/jobs/" +:+ jobId) ∅);
            ConsoleError [VStr ("Error fetching job " +:+ jobId +:+ ":"); diagnostic e]]).
Proof.
  intros Hsettle.
  unfold create_application_handler. rewrite try_catch_run, bind_run.
  unfold getJobById. by rewrite adapter_get_run, Hsettle.
Qed.

(** What it does when the lookup is fulfilled with a falsy body: the "not
    found" answer, and no application is posted. *)
Lemma create_application_job_lookup_falsy jobId firstName lastName email w tr job :
  settle id (upstream w tr (ApiGet ("/jobs/" +:+ jobId) ∅)) = Fulfilled {| data := job |} →
  truthy job = false →
  create_application_handler jobId firstName lastName email w tr
  = (Fulfilled (text_content (VStr ("Error: Job with ID " +:+ jobId +:+ " not found."))),
     tr ++ [Sent (ApiGet ("/jobs/" +:+ jobId) ∅)]).
Proof.
  intros Hsettle Hfalsy.
  unfold create_application_handler. rewrite try_catch_run, bind_run.
  unfold getJobById. rewrite adapter_get_run, Hsettle. cbn [data].
  by rewrite Hfalsy.
Qed.

(** C1 (the code departs from it): when the upstream answers the job lookup
    with 404, [create-application] posts no application, as claimed, but
    its response text is "Error creating application: Request failed with
    status code 404", which does not contain "not found". *)
Theorem create_application_missing_job (w : World) (tr : list event)
    (jobId firstName lastName email : string) (body : value) :
  upstream w tr (ApiGet ("/jobs/" +:+ jobId) ∅) = Http 404 body →
  ∃ evs,
    create_application_handler jobId firstName lastName email w tr
    = (Fulfilled (text_content
         (VStr "Error creating application: Request failed with status code 404")),
       tr ++ evs)
    ∧ requests evs = [ApiGet ("/jobs/" +:+ jobId) ∅]
    ∧ ¬ Includes "not found" "Error creating application: Request failed with status code 404".
Proof.
  intros Hreply.
  set (e := {| message := "Request failed with status code 404"; response_data := Some body |}).
  exists [Sent (ApiGet ("/jobs/" +:+ jobId) ∅);
          ConsoleError [VStr ("Error fetching job " +:+ jobId +:+ ":"); diagnostic e]].
  split; [|split].
  - rewrite (create_application_job_lookup_rejected _ _ _ _ _ _ e); [reflexivity|].
    by rewrite Hreply.
  - reflexivity.
  - intros Hsub. apply includes_complete in Hsub. vm_compute in Hsub. discriminate.
Qed.

Lemma create_application_missing_job_witness :
  (create_application_handler "999" "Ada" "Lovelace" "ada@example.com" no_jobs []).1
  = Fulfilled (text_content
      (VStr "Error creating application: Request failed with status code 404")).
Proof.
  destruct (create_application_missing_job no_jobs [] "999" "Ada" "Lovelace" "ada@example.com"
              (VObj [("errors", VArr [VObj [("status", VStr "404");
                                            ("title", VStr "Not Found")]])]) eq_refl)
    as (evs & Hrun & _).
  by rewrite Hrun.
Defined.

(** C2 (the code departs from it): [get-job] and [get-jobs] have no catch
    block; when the adapter call is rejected, so is the handler, with the
    same error, and no response envelope is produced. *)
Theorem get_job_tools_propagate (JSON_stringify : value → value) (w : World) (tr : list event)
    (e : error) :
  (∀ id, (getJobById id w tr).1 = Rejected e →
         (get_job_handler JSON_stringify id w tr).1 = Rejected e)
  ∧ (∀ search status employment_type workplace_type page per_page,
       (getJobs (JobFilters.Build_t search status employment_type workplace_type page per_page)
          w tr).1 = Rejected e →
       (get_jobs_handler JSON_stringify search status employment_type workplace_type page per_page
          w tr).1 = Rejected e).
Proof.
  split.
  - intros id Hthrown. unfold get_job_handler. rewrite map_result_run.
    destruct (getJobById id w tr) as [o tr']. simpl in Hthrown. by subst o.
  - intros search status employment_type workplace_type page per_page Hthrown.
    unfold get_jobs_handler. rewrite map_result_run.
    destruct (getJobs _ w tr) as [o tr']. simpl in Hthrown. by subst o.
Qed.

Lemma get_job_tools_propagate_witness :
  (get_job_handler (λ _, VStr "{}") "999" no_jobs []).1
  = Rejected {| message := "Request failed with status code 404";
                response_data := Some (VObj [("errors", VArr [VObj [("status", VStr "404");
                                                                    ("title", VStr "Not Found")]])]) |}
  ∧ (get_jobs_handler (λ _, VStr "{}") None None None None (Some 1%Z) (Some 20%Z) no_jobs []).1
  = Rejected {| message := "Request failed with status code 404";
                response_data := Some (VObj [("errors", VArr [VObj [("status", VStr "404");
                                                                    ("title", VStr "Not Found")]])]) |}.
Proof.
  split.
  - apply (get_job_tools_propagate (λ _, VStr "{}") no_jobs []). reflexivity.
  - apply (get_job_tools_propagate (λ _, VStr "{}") no_jobs []). reflexivity.
Defined.

(** * Further properties of the code *)

(** ** The adapter: one request, no retry, log and rethrow *)

(** X1: Each adapter function sends exactly one request, whatever the upstream
    answers: the listed path, with the parameters built from the filters or
    none. A failure is not retried. *)
Theorem adapter_sends_one_request (w : World) (tr : list event) :
  (∀ f, requests (new_events (getJobs f) w tr) = [ApiGet "/jobs" (getJobs_params f)])
  ∧ (∀ id, requests (new_events (getJobById id) w tr) = [ApiGet ("/jobs/" +:+ id) ∅])
  ∧ (∀ id, requests (new_events (getApplicationById id) w tr)
           = [ApiGet ("/applications/" +:+ id) ∅])
  ∧ (∀ a, requests (new_events (createApplication a) w tr)
          = [ApiPost "/applications" (applicationData a)])
  ∧ (∀ f, requests (new_events (getApplications f) w tr)
          = [ApiGet "/applications" (getApplications_params f)]).
Proof.
  repeat apply conj; intros;
    first [apply adapter_get_requests | apply adapter_post_requests].
Qed.

Lemma adapter_get_policy path params label w tr :
  passes_through_or_rethrows
    (try_catch
       (response ← api_get path params; mret (data response))
       (λ error, console_error [VStr label; diagnostic error];; throw error))
    (ApiGet path params) label w tr.
Proof.
  unfold passes_through_or_rethrows, new_events. rewrite adapter_get_run.
  destruct (upstream w tr _) as [status body|reason]; simpl.
  - destruct (validateStatus status); simpl; rewrite drop_app_length; [done|].
    split; [done|]. unfold diagnostic, or_else. simpl. by destruct (truthy body).
  - by rewrite drop_app_length.
Qed.

Lemma adapter_post_policy path body label w tr :
  passes_through_or_rethrows
    (try_catch
       (response ← api_post path body; mret (data response))
       (λ error, console_error [VStr label; diagnostic error];; throw error))
    (ApiPost path body) label w tr.
Proof.
  unfold passes_through_or_rethrows, new_events. rewrite adapter_post_run.
  destruct (upstream w tr _) as [status reply_body|reason]; simpl.
  - destruct (validateStatus status); simpl; rewrite drop_app_length; [done|].
    split; [done|]. unfold diagnostic, or_else. simpl. by destruct (truthy reply_body).
  - by rewrite drop_app_length.
Qed.

(** X2: All five adapter functions follow one failure policy: the body of a
    2xx reply is returned untouched and nothing is logged; otherwise the
    axios error is rethrown as it is, after one [console.error] line that
    shows the reply's body when it is truthy and the error message
    otherwise. *)
Theorem adapter_failure_policy (w : World) (tr : list event) :
  (∀ f, passes_through_or_rethrows (getJobs f)
          (ApiGet "/jobs" (getJobs_params f)) "Error fetching jobs:" w tr)
  ∧ (∀ id, passes_through_or_rethrows (getJobById id)
             (ApiGet ("/jobs/" +:+ id) ∅) ("Error fetching job " +:+ id +:+ ":") w tr)
  ∧ (∀ a, passes_through_or_rethrows (createApplication a)
            (ApiPost "/applications" (applicationData a)) "Error creating application:" w tr)
  ∧ (∀ f, passes_through_or_rethrows (getApplications f)
            (ApiGet "/applications" (getApplications_params f))
            "Error fetching applications:" w tr)
  ∧ (∀ id, passes_through_or_rethrows (getApplicationById id)
             (ApiGet ("/applications/" +:+ id) ∅)
             ("Error fetching application " +:+ id +:+ ":") w tr).
Proof.
  repeat apply conj; intros;
    first [apply adapter_get_policy | apply adapter_post_policy].
Qed.

(** ** Query parameters determine the carried fields *)







(** ** The keys [getApplications] can send *)

(** X5: The query of [getApplications] has the two fixed keys and, for each
    field that carries a value, that field's key and no other: between two
    and seven parameters in all. *)
Theorem getApplications_params_keys (f : ApplicationFilters.t) :
  dom (getApplications_params f)
  = key_if (carries_string (ApplicationFilters.job_id f)) "filter[job_id]"
    ∪ key_if (carries_string (ApplicationFilters.job_visibility f)) "filter[job_visibility]"
    ∪ key_if (carries_string (ApplicationFilters.stage_id f)) "filter[stage_id]"
    ∪ key_if (carries_number (ApplicationFilters.page f)) "page"
    ∪ key_if (carries_number (ApplicationFilters.per_page f)) "per_page"
    ∪ {[ "extra_fields[applications]"; "stats[total]" ]}
  ∧ 2 ≤ size (getApplications_params f) ≤ 7.
Proof.
  pose proof (getApplications_params_dom f) as Hdom.
  split; [exact Hdom|].
  rewrite <- size_dom, Hdom.
  destruct (carries_string (ApplicationFilters.job_id f)),
    (carries_string (ApplicationFilters.job_visibility f)),
    (carries_string (ApplicationFilters.stage_id f)),
    (carries_number (ApplicationFilters.page f)),
    (carries_number (ApplicationFilters.per_page f));
    vm_compute; split; lia.
Qed.

(** ** The argument schema of [get-jobs] *)

Lemma z_enum_spec allowed field :
  z_enum allowed field = true ↔ ∀ s, field = Some s → s ∈ allowed.
Proof.
  unfold z_enum. destruct field as [s|].
  - rewrite bool_decide_eq_true. naive_solver.
  - naive_solver.
Qed.

Lemma z_positive_default_spec d field n :
  z_positive_default d field = Some n
  ↔ (∀ m, field = Some m → (0 < m)%Z) ∧ n = default d field.
Proof.
  unfold z_positive_default. destruct field as [m|]; simpl.
  - destruct (Z.ltb_spec 0 m); split.
    + intros [= <-]. split; [by intros ? [= <-] | done].
    + by intros [_ ->].
    + done.
    + intros [Hpos _]. specialize (Hpos m eq_refl). lia.
  - split; [intros [= <-]; by split | by intros [_ ->]].
Qed.

Lemma z_positive_default_given d field :
  (∀ m, field = Some m → (0 < m)%Z) →
  z_positive_default d field = Some (default d field).
Proof. intros Hfield. by apply z_positive_default_spec. Qed.

(** What an accepted invocation looks like. *)
Lemma get_jobs_schema_inv (input args : JobFilters.t) :
  get_jobs_schema input = Some args →
  (∀ s, JobFilters.status input = Some s
        → s ∈ ["open"; "closed"; "filled"; "on_hold"; "draft"])
  ∧ (∀ s, JobFilters.employment_type input = Some s
          → s ∈ ["full_time"; "part_time"; "contract"; "temporary"; "internship"])
  ∧ (∀ s, JobFilters.workplace_type input = Some s → s ∈ ["onsite"; "remote"; "hybrid"])
  ∧ (∀ n, JobFilters.page input = Some n → (0 < n)%Z)
  ∧ (∀ n, JobFilters.per_page input = Some n → (0 < n)%Z)
  ∧ args = {| JobFilters.search := JobFilters.search input;
              JobFilters.status := JobFilters.status input;
              JobFilters.employment_type := JobFilters.employment_type input;
              JobFilters.workplace_type := JobFilters.workplace_type input;
              JobFilters.page := Some (default 1%Z (JobFilters.page input));
              JobFilters.per_page := Some (default 20%Z (JobFilters.per_page input)) |}.
Proof.
  unfold get_jobs_schema. rewrite <- !z_enum_spec.
  destruct (z_enum _ (JobFilters.status input)); simpl; [|done].
  destruct (z_enum _ (JobFilters.employment_type input)); simpl; [|done].
  destruct (z_enum _ (JobFilters.workplace_type input)); simpl; [|done].
  destruct (z_positive_default 1 (JobFilters.page input)) as [p|] eqn:Hpage; simpl; [|done].
  destruct (z_positive_default 20 (JobFilters.per_page input)) as [pp|] eqn:Hper;
    simpl; [|done].
  apply z_positive_default_spec in Hpage as [Hpage ->].
  apply z_positive_default_spec in Hper as [Hper ->].
  by intros [= <-].
Qed.

(** X6: The schema accepts an invocation exactly when every enumerated
    argument that is given is one of the listed words and [page] and
    [per_page], when given, are positive; the handler then receives the
    arguments unchanged, with 1 and 20 in place of an omitted [page] and
    [per_page]. *)
Theorem get_jobs_schema_accepts (input args : JobFilters.t) :
  get_jobs_schema input = Some args
  ↔ (∀ s, JobFilters.status input = Some s
          → s ∈ ["open"; "closed"; "filled"; "on_hold"; "draft"])
    ∧ (∀ s, JobFilters.employment_type input = Some s
            → s ∈ ["full_time"; "part_time"; "contract"; "temporary"; "internship"])
    ∧ (∀ s, JobFilters.workplace_type input = Some s → s ∈ ["onsite"; "remote"; "hybrid"])
    ∧ (∀ n, JobFilters.page input = Some n → (0 < n)%Z)
    ∧ (∀ n, JobFilters.per_page input = Some n → (0 < n)%Z)
    ∧ args = {| JobFilters.search := JobFilters.search input;
                JobFilters.status := JobFilters.status input;
                JobFilters.employment_type := JobFilters.employment_type input;
                JobFilters.workplace_type := JobFilters.workplace_type input;
                JobFilters.page := Some (default 1%Z (JobFilters.page input));
                JobFilters.per_page := Some (default 20%Z (JobFilters.per_page input)) |}.
Proof.
  split; [apply get_jobs_schema_inv|].
  intros (Hs & He & Hw & Hp & Hpp & ->).
  apply z_enum_spec in Hs, He, Hw.
  unfold get_jobs_schema. rewrite Hs, He, Hw. simpl.
  by rewrite (z_positive_default_given _ _ Hp), (z_positive_default_given _ _ Hpp).
Qed.

(** X7: Validated arguments validate again, to themselves: the defaults are
    positive and nothing else is rewritten. *)
Theorem get_jobs_schema_idempotent (input args : JobFilters.t) :
  get_jobs_schema input = Some args → get_jobs_schema args = Some args.
Proof.
  intros Hschema.
  apply get_jobs_schema_inv in Hschema as (Hs & He & Hw & Hp & Hpp & ->).
  apply z_enum_spec in Hs, He, Hw.
  unfold get_jobs_schema.
  cbn [JobFilters.search JobFilters.status JobFilters.employment_type
       JobFilters.workplace_type JobFilters.page JobFilters.per_page].
  rewrite Hs, He, Hw. cbn [andb].
  assert (Hpage : ∀ m, Some (default 1%Z (JobFilters.page input)) = Some m → (0 < m)%Z).
  { intros m [= <-]. destruct (JobFilters.page input) as [p|]; simpl; [by apply Hp | lia]. }
  assert (Hper : ∀ m, Some (default 20%Z (JobFilters.per_page input)) = Some m → (0 < m)%Z).
  { intros m [= <-]. destruct (JobFilters.per_page input) as [p|]; simpl; [by apply Hpp | lia]. }
  by rewrite (z_positive_default_given _ _ Hpage), (z_positive_default_given _ _ Hper).
Qed.

Lemma get_jobs_schema_idempotent_witness :
  get_jobs_schema
    {| JobFilters.search := Some "rust"; JobFilters.status := Some "open";
       JobFilters.employment_type := None; JobFilters.workplace_type := Some "remote";
       JobFilters.page := Some 1%Z; JobFilters.per_page := Some 20%Z |}
  = Some {| JobFilters.search := Some "rust"; JobFilters.status := Some "open";
            JobFilters.employment_type := None; JobFilters.workplace_type := Some "remote";
            JobFilters.page := Some 1%Z; JobFilters.per_page := Some 20%Z |}.
Proof.
  apply (get_jobs_schema_idempotent
           {| JobFilters.search := Some "rust"; JobFilters.status := Some "open";
              JobFilters.employment_type := None; JobFilters.workplace_type := Some "remote";
              JobFilters.page := None; JobFilters.per_page := None |}).
  reflexivity.
Defined.




(** ** The [create-application] tool *)

Lemma settle_never_pending {B : Type} (f : B → value) (r : reply B) : settle f r ≠ Pending.
Proof. destruct r; simpl; [destruct (validateStatus _)|]; done. Qed.

(** Reading a property sends nothing and logs nothing. *)
Lemma get_run v k w tr :
  (∃ x, get v k w tr = (Fulfilled x, tr)) ∨ (∃ e, get v k w tr = (Rejected e, tr)).
Proof. destruct v; simpl; eauto. Qed.

(** The tail of the handler after the application was posted: it only
    formats, so it leaves the trace alone and ends fulfilled with a text or
    rejected with a TypeError. *)
Lemma create_application_format_run applicationResponse jobResponse firstName lastName email
    w tr :
  let format : Async Mcp.ToolResult :=
    application ← get applicationResponse "data";
    application_id ← get application "id";
    job ← get jobResponse "data";
    attributes ← get job "attributes";
    title ← get attributes "title";
    mret (text_content (VStr (
      "Application submitted successfully! Application ID: " +:+ to_string application_id
      +:+ nl +:+ nl +:+ "Job: " +:+ to_string title
      +:+ nl +:+ "Applicant: " +:+ firstName +:+ " " +:+ lastName
      +:+ nl +:+ "Email: " +:+ email))) in
  (∃ t, format w tr = (Fulfilled (text_content (VStr t)), tr))
  ∨ (∃ e, format w tr = (Rejected e, tr)).
Proof.
  cbv zeta.
  rewrite bind_run.
  destruct (get_run applicationResponse "data" w tr) as [[application ->]|[e ->]]; [|eauto].
  rewrite bind_run.
  destruct (get_run application "id" w tr) as [[application_id ->]|[e ->]]; [|eauto].
  rewrite bind_run.
  destruct (get_run jobResponse "data" w tr) as [[job ->]|[e ->]]; [|eauto].
  rewrite bind_run.
  destruct (get_run job "attributes" w tr) as [[attributes ->]|[e ->]]; [|eauto].
  rewrite bind_run.
  destruct (get_run attributes "title" w tr) as [[title ->]|[e ->]]; [|eauto].
  left. eexists. reflexivity.
Qed.

(** The handler, case by case: what it answers and what it adds to the
    trace. *)
Lemma create_application_run jobId firstName lastName email w tr :
  let lookup := ApiGet ("/jobs/" +:+ jobId) ∅ in
  let creation := ApiPost "/applications"
                    (applicationData {| firstName := firstName; lastName := lastName;
                                        email := email; jobId := jobId |}) in
  ∃ t evs,
    create_application_handler jobId firstName lastName email w tr
    = (Fulfilled (text_content (VStr t)), tr ++ evs)
    ∧ match (getJobById jobId w tr).1 with
      | Fulfilled job =>
          if truthy job
          then requests evs = [lookup; creation]
          else requests evs = [lookup]
      | _ => requests evs = [lookup]
      end.
Proof.
  cbv zeta. unfold create_application_handler.
  rewrite try_catch_run, bind_run.
  unfold getJobById at 1 2. rewrite adapter_get_run.
  destruct (settle id (upstream w tr _)) as [[job]|e|] eqn:Hlookup; cbn [data fst];
    [| |by destruct (settle_never_pending _ _ Hlookup)].
  - destruct (truthy job); cbn [negb].
    + rewrite bind_run. unfold createApplication. rewrite adapter_post_run.
      destruct (settle id (upstream w (tr ++ [_]) _)) as [[created]|e|] eqn:Hcreation;
        cbn [data]; [| |by destruct (settle_never_pending _ _ Hcreation)].
      * cbv beta iota.
        match goal with |- context [(get created "data" ≫= _) w ?tr'] =>
          destruct (create_application_format_run created job firstName lastName email w tr')
            as [[t Hformat]|[e Hformat]]
        end; cbv zeta in Hformat; rewrite Hformat.
        -- eexists _, [_; _]. rewrite <- app_assoc. split; reflexivity.
        -- eexists _, [_; _]. rewrite <- app_assoc. split; reflexivity.
      * eexists _, [_; _; _]. rewrite <- app_assoc. split; reflexivity.
    + eexists _, [_]. split; reflexivity.
  - eexists _, [_; _]. split; reflexivity.
Qed.

(** X9: [create-application] always answers with one text item. It looks the
    job up exactly once, and posts an application, once and after the
    look-up, exactly when the look-up was fulfilled with a truthy body. *)
Theorem create_application_posts_iff_job_found (jobId firstName lastName email : string)
    (w : World) (tr : list event) :
  let lookup := ApiGet ("/jobs/" +:+ jobId) ∅ in
  let creation := ApiPost "/applications"
                    (applicationData {| firstName := firstName; lastName := lastName;
                                        email := email; jobId := jobId |}) in
  ∃ t evs,
    create_application_handler jobId firstName lastName email w tr
    = (Fulfilled (text_content (VStr t)), tr ++ evs)
    ∧ (requests evs = [lookup] ∨ requests evs = [lookup; creation])
    ∧ (requests evs = [lookup; creation]
       ↔ ∃ job, (getJobById jobId w tr).1 = Fulfilled job ∧ truthy job = true).
Proof.
  cbv zeta.
  destruct (create_application_run jobId firstName lastName email w tr)
    as (t & evs & Hrun & Hrequests).
  cbv zeta in Hrequests.
  exists t, evs. split; [done|].
  destruct (getJobById jobId w tr).1 as [job|e|].
  - destruct (truthy job) eqn:Htruthy.
    + split; [by right|]. split; [eauto|done].
    + split; [by left|]. rewrite Hrequests.
      split; [done|]. intros (job' & [= <-] & Htrue). congruence.
  - split; [by left|]. rewrite Hrequests.
    split; [done|]. by intros (job' & ? & _).
  - split; [by left|]. rewrite Hrequests.
    split; [done|]. by intros (job' & ? & _).
Qed.

(** X10: The happy path: when the look-up returns a job document and the
    creation returns the created document, the answer names the new
    application's id, the job's title, the applicant and the e-mail
    address, on four lines. *)
Theorem create_application_success (jobId firstName lastName email : string)
    (w : World) (tr : list event) (s1 s2 : Z)
    (job_fields job attributes created_fields created : list (string * value)) :
  let lookup := ApiGet ("/jobs/" +:+ jobId) ∅ in
  let creation := ApiPost "/applications"
                    (applicationData {| firstName := firstName; lastName := lastName;
                                        email := email; jobId := jobId |}) in
  upstream w tr lookup = Http s1 (VObj job_fields) →
  validateStatus s1 = true →
  field "data" job_fields = VObj job →
  field "attributes" job = VObj attributes →
  upstream w (tr ++ [Sent lookup]) creation = Http s2 (VObj created_fields) →
  validateStatus s2 = true →
  field "data" created_fields = VObj created →
  create_application_handler jobId firstName lastName email w tr
  = (Fulfilled (text_content (VStr (
       "Application submitted successfully! Application ID: " +:+ to_string (field "id" created)
       +:+ nl +:+ nl +:+ "Job: " +:+ to_string (field "title" attributes)
       +:+ nl +:+ "Applicant: " +:+ firstName +:+ " " +:+ lastName
       +:+ nl +:+ "Email: " +:+ email))),
     tr ++ [Sent lookup; Sent creation]).
Proof.
  cbv zeta. intros Hlookup Hs1 Hjob Hattributes Hcreation Hs2 Hcreated.
  unfold create_application_handler.
  rewrite try_catch_run, bind_run.
  unfold getJobById. rewrite adapter_get_run, Hlookup.
  cbn [settle]. rewrite Hs1. cbn [data truthy negb]. cbv beta iota.
  rewrite bind_run. unfold createApplication. rewrite adapter_post_run, Hcreation.
  cbn [settle]. rewrite Hs2. cbn [data]. cbv beta iota.
  rewrite !bind_run. cbn [get]. unfold mret, Async_ret. rewrite Hcreated.
  cbn [get]. rewrite !bind_run. cbn [get]. unfold mret, Async_ret. rewrite Hjob.
  cbn [get]. rewrite !bind_run. cbn [get]. unfold mret, Async_ret. rewrite Hattributes.
  cbn [get]. by rewrite <- app_assoc.
Qed.

Lemma create_application_success_witness :
  create_application_handler "42" "Ada" "Lovelace" "ada@example.com" hiring []
  = (Fulfilled (text_content (VStr (
       "Application submitted successfully! Application ID: 7"
       +:+ nl +:+ nl +:+ "Job: Engineer"
       +:+ nl +:+ "Applicant: Ada Lovelace"
       +:+ nl +:+ "Email: ada@example.com"))),
     [Sent (ApiGet "/jobs/42" ∅); Sent (ApiPost "/applications" (applicationData ada))]).
Proof.
  apply (create_application_success "42" "Ada" "Lovelace" "ada@example.com" hiring [] 200 201
           [("data", VObj [("id", VStr "42"); ("attributes", VObj [("title", VStr "Engineer")])])]
           [("id", VStr "42"); ("attributes", VObj [("title", VStr "Engineer")])]
           [("title", VStr "Engineer")]
           [("data", VObj [("id", VStr "7")])]
           [("id", VStr "7")]); reflexivity.
Defined.

(** X11: An application can be created and yet reported as failed: when the
    upstream accepts the POST with a body from which no [data.id] can be
    read (an empty body, say), the handler has sent the creation request
    but answers "Error creating application: ...". *)
Theorem create_application_created_yet_reported_failed
    (jobId firstName lastName email : string) (w : World) (tr : list event)
    (s1 s2 : Z) (job created : value) :
  let lookup := ApiGet ("/jobs/" +:+ jobId) ∅ in
  let creation := ApiPost "/applications"
                    (applicationData {| firstName := firstName; lastName := lastName;
                                        email := email; jobId := jobId |}) in
  upstream w tr lookup = Http s1 job →
  validateStatus s1 = true →
  truthy job = true →
  upstream w (tr ++ [Sent lookup]) creation = Http s2 created →
  validateStatus s2 = true →
  lacks_data created = true →
  ∃ reason,
    create_application_handler jobId firstName lastName email w tr
    = (Fulfilled (text_content (VStr ("Error creating application: " +:+ reason))),
       tr ++ [Sent lookup; Sent creation]).
Proof.
  cbv zeta. intros Hlookup Hs1 Htruthy Hcreation Hs2 Hlacks.
  unfold create_application_handler.
  rewrite try_catch_run, bind_run.
  unfold getJobById. rewrite adapter_get_run, Hlookup.
  cbn [settle]. rewrite Hs1. cbn [data]. cbv beta iota. rewrite Htruthy. cbn [negb].
  rewrite bind_run. unfold createApplication. rewrite adapter_post_run, Hcreation.
  cbn [settle]. rewrite Hs2. cbn [data]. cbv beta iota.
  rewrite <- app_assoc. cbn [app].
  destruct created as [| |b|n|s|xs|fields]; cbn [lacks_data] in Hlacks;
    try (eexists; reflexivity).
  rewrite !bind_run. cbn [get]. unfold mret at 1, Async_ret at 1.
  destruct (field "data" fields); try discriminate; eexists; reflexivity.
Qed.

Lemma create_application_created_yet_reported_failed_witness :
  ∃ reason,
    create_application_handler "42" "Ada" "Lovelace" "ada@example.com" hiring_without_content []
    = (Fulfilled (text_content (VStr ("Error creating application: " +:+ reason))),
       [Sent (ApiGet "/jobs/42" ∅); Sent (ApiPost "/applications" (applicationData ada))]).
Proof.
  apply (create_application_created_yet_reported_failed
           "42" "Ada" "Lovelace" "ada@example.com" hiring_without_content [] 200 204
           (VObj [("data", VObj [("id", VStr "42");
                                 ("attributes", VObj [("title", VStr "Engineer")])])])
           (VStr "")); reflexivity.
Defined.

(** ** The other tools *)

Lemma message_or_unknown_spec (e : error) :
  message_or_unknown e = if String.eqb (message e) "" then "Unknown error" else message e.
Proof.
  unfold message_or_unknown, or_else. simpl.
  by destruct (String.eqb (message e) "").
Qed.

(** X12: [create-application], [get-applications] and
    [get-application-by-id] always answer with one text item: their promise
    is never rejected and never left pending. *)
Theorem api_tools_always_answer (JSON_stringify : value → value) (w : World) (tr : list event) :
  (∀ jobId firstName lastName email,
     ∃ t tr', create_application_handler jobId firstName lastName email w tr
              = (Fulfilled (text_content t), tr'))
  ∧ (∀ jobId jobVisibility stageId page perPage,
       ∃ t tr', get_applications_handler JSON_stringify jobId jobVisibility stageId page perPage
                  w tr
                = (Fulfilled (text_content t), tr'))
  ∧ (∀ id, ∃ t tr', get_application_by_id_handler JSON_stringify id w tr
                    = (Fulfilled (text_content t), tr')).
Proof.
  repeat apply conj.
  - intros jobId firstName lastName email.
    destruct (create_application_run jobId firstName lastName email w tr)
      as (t & evs & Hrun & _).
    eauto.
  - intros jobId jobVisibility stageId page perPage.
    unfold get_applications_handler. rewrite try_catch_run, bind_run.
    unfold getApplications. rewrite adapter_get_run.
    destruct (settle id (upstream w tr _)) as [[body]|e|] eqn:Hsettle; cbn [data];
      [| eauto | by destruct (settle_never_pending _ _ Hsettle)].
    cbv beta iota. rewrite bind_run.
    match goal with |- context [get body "meta" w ?tr'] =>
      destruct (get_run body "meta" w tr') as [[meta ->]|[e ->]]; [|eauto]
    end.
    cbv zeta. rewrite bind_run.
    match goal with |- context [get body "data" w ?tr'] =>
      destruct (get_run body "data" w tr') as [[applications ->]|[e ->]]; eauto
    end.
  - intros ident.
    unfold get_application_by_id_handler. rewrite try_catch_run, bind_run.
    unfold getApplicationById. rewrite adapter_get_run.
    destruct (settle _ (upstream w tr _)) as [[body]|e|] eqn:Hsettle; cbn [data];
      [| eauto | by destruct (settle_never_pending _ _ Hsettle)].
    cbv beta iota. rewrite bind_run.
    match goal with |- context [get body "data" w ?tr'] =>
      destruct (get_run body "data" w tr') as [[application ->]|[e ->]]; eauto
    end.
Qed.

(** X13: When the adapter call behind [get-applications],
    [get-application-by-id] or [parse-cv-from-url] is rejected, the answer
    is the tool's own prefix followed by the error's message, or by
    "Unknown error" when that message is empty. *)
Theorem tools_report_the_error_message (JSON_stringify : value → value)
    (w : World) (tr : list event) (e : error) :
  let reason := if String.eqb (message e) "" then "Unknown error" else message e in
  (∀ jobId jobVisibility stageId page perPage,
     (getApplications (ApplicationFilters.Build_t jobId jobVisibility stageId page perPage)
        w tr).1 = Rejected e →
     (get_applications_handler JSON_stringify jobId jobVisibility stageId page perPage w tr).1
     = Fulfilled (text_content (VStr ("Error fetching applications: " +:+ reason))))
  ∧ (∀ id,
       (getApplicationById id w tr).1 = Rejected e →
       (get_application_by_id_handler JSON_stringify id w tr).1
       = Fulfilled (text_content (VStr ("Error fetching application: " +:+ reason))))
  ∧ (∀ url,
       (parsePdfFromUrl url w tr).1 = Rejected e →
       (parse_cv_from_url_handler url w tr).1
       = Fulfilled (text_content (VStr ("Error parsing CV from URL: " +:+ reason)))).
Proof.
  cbv zeta. rewrite <- message_or_unknown_spec.
  repeat apply conj.
  - intros jobId jobVisibility stageId page perPage Hrejected.
    unfold get_applications_handler. rewrite try_catch_run, bind_run.
    destruct (getApplications _ w tr) as [o tr']. simpl in Hrejected. by subst o.
  - intros id Hrejected.
    unfold get_application_by_id_handler. rewrite try_catch_run, bind_run.
    destruct (getApplicationById id w tr) as [o tr']. simpl in Hrejected. by subst o.
  - intros url Hrejected.
    unfold parse_cv_from_url_handler. rewrite try_catch_run, bind_run.
    destruct (parsePdfFromUrl url w tr) as [o tr']. simpl in Hrejected. by subst o.
Qed.

Lemma tools_report_the_error_message_witness :
  (get_application_by_id_handler (λ _, VStr "{}") "7" no_jobs []).1
  = Fulfilled (text_content
      (VStr "Error fetching application: Request failed with status code 404"))
  ∧ (get_application_by_id_handler (λ _, VStr "{}") "7"
       (rest_world (λ _, NetworkFailure "")) []).1
    = Fulfilled (text_content (VStr "Error fetching application: Unknown error")).
Proof.
  split.
  - apply (tools_report_the_error_message (λ _, VStr "{}") no_jobs []
             {| message := "Request failed with status code 404";
                response_data := Some (VObj [("errors", VArr [VObj [("status", VStr "404");
                                                                    ("title", VStr "Not Found")]])]) |}).
    reflexivity.
  - apply (tools_report_the_error_message (λ _, VStr "{}")
             (rest_world (λ _, NetworkFailure "")) []
             {| message := ""; response_data := None |}).
    reflexivity.
Defined.

(** X14: [get-applications] reads the total through optional chaining: with
    [meta.stats.total] in place the answer starts "Found <count>
    applications:", and when the document has no [meta] the answer is
    still produced, with "undefined" for the count. *)
Theorem get_applications_count (JSON_stringify : value → value)
    (jobId jobVisibility stageId : option string) (page perPage : option Z)
    (w : World) (tr : list event) (fields : list (string * value)) :
  (getApplications (ApplicationFilters.Build_t jobId jobVisibility stageId page perPage)
     w tr).1 = Fulfilled (VObj fields) →
  let answer := (get_applications_handler JSON_stringify jobId jobVisibility stageId
                   page perPage w tr).1 in
  let listing := nl +:+ nl +:+ to_string (JSON_stringify (field "data" fields)) in
  (∀ meta stats total,
     field "meta" fields = VObj meta →
     field "stats" meta = VObj stats →
     field "total" stats = VObj total →
     answer = Fulfilled (text_content (VStr (
       "Found " +:+ to_string (field "count" total) +:+ " applications:" +:+ listing))))
  ∧ (field "meta" fields = VUndefined →
     answer = Fulfilled (text_content (VStr ("Found undefined applications:" +:+ listing)))).
Proof.
  intros Hfulfilled. cbv zeta.
  unfold get_applications_handler. rewrite try_catch_run, bind_run.
  destruct (getApplications _ w tr) as [o tr']. simpl in Hfulfilled. subst o.
  cbv beta iota. rewrite !bind_run. cbn [get]. unfold mret, Async_ret.
  split.
  - intros meta stats total Hmeta Hstats Htotal.
    rewrite Hmeta. cbn [get_opt]. rewrite Hstats. cbn [get_opt]. rewrite Htotal.
    reflexivity.
  - intros Hmeta. rewrite Hmeta. reflexivity.
Qed.

Lemma get_applications_count_witness :
  (get_applications_handler (λ _, VStr "[]") (Some "42") None None None None
     two_applications []).1
  = Fulfilled (text_content (VStr ("Found 2 applications:" +:+ nl +:+ nl +:+ "[]"))).
Proof.
  destruct (get_applications_count (λ _, VStr "[]") (Some "42") None None None None
              two_applications []
              [("data", VArr []);
               ("meta", VObj [("stats", VObj [("total", VObj [("count", VNum 2)])])])]
              eq_refl) as [Hcount _].
  apply (Hcount [("stats", VObj [("total", VObj [("count", VNum 2)])])]
                [("total", VObj [("count", VNum 2)])]
                [("count", VNum 2)]); reflexivity.
Defined.

(** ** More on the PDF text extractor *)

Lemma on_item_logged st cb :
  logged (on_item st cb)
  = logged st ++ (if truthy (err cb) then [parser_error_line cb] else []).
Proof.
  unfold on_item, resolve, parser_error_line.
  destruct (truthy (err cb)); simpl.
  - by destruct (resolved st).
  - rewrite app_nil_r. destruct (item cb) as [it|].
    + destruct (text it) as [t|]; [|done]. by destruct (negb _).
    + by destruct (resolved st).
Qed.

Lemma fold_on_item_logged cbs st :
  logged (fold_left on_item cbs st)
  = logged st ++ (parser_error_line <$> filter (λ cb, truthy (err cb) = true) cbs).
Proof.
  revert st. induction cbs as [|cb cbs IH]; intros st; simpl.
  - by rewrite app_nil_r.
  - rewrite IH, on_item_logged, filter_cons.
    destruct (decide (truthy (err cb) = true)) as [Herr|Herr].
    + rewrite Herr, fmap_cons. by rewrite <- app_assoc.
    + apply not_true_is_false in Herr. rewrite Herr. by rewrite app_nil_r.
Qed.

(** X15: Every callback that reports an error is logged, in order, also after
    the promise has been resolved; nothing else is logged and nothing is
    sent. *)
Theorem extractTextFromPdf_logs_every_error (buffer : list Byte.byte) (w : World)
    (tr : list event) :
  new_events (extractTextFromPdf buffer) w tr
  = parser_error_line
    <$> filter (λ cb, truthy (err cb) = true) (PdfReader_parseBuffer w buffer).
Proof.
  apply new_events_app. unfold extractTextFromPdf. simpl.
  by rewrite fold_on_item_logged.
Qed.



(** X16: The first terminal item decides: once it has come, after items only,
    the promise holds the fragments collected so far, whatever the parser
    calls back later. *)
Theorem extractTextFromPdf_first_terminal_decides (buffer : list Byte.byte) (w : World)
    (tr : list event) (cbs later : list callback) (terminal : callback) :
  PdfReader_parseBuffer w buffer = cbs ++ terminal :: later →
  Forall (λ cb, is_item cb = true) cbs →
  is_terminal terminal = true →
  (extractTextFromPdf buffer w tr).1 = Fulfilled (join " " (fragments cbs)).
Proof.
  intros Hparse Hitems Hterminal.
  unfold extractTextFromPdf. rewrite Hparse, fold_left_app.
  rewrite (fold_on_item_items cbs) by done. simpl.
  erewrite fold_on_item_resolved; [done|].
  unfold is_terminal in Hterminal. apply andb_true_iff in Hterminal as [Herr Hnull].
  apply negb_true_iff in Herr. unfold on_item. rewrite Herr.
  by destruct (item terminal).
Qed.

Lemma extractTextFromPdf_first_terminal_decides_witness :
  (extractTextFromPdf []
     (pdf_world (NetworkFailure "unused")
        [text_item "Ada"; end_of_stream; text_item "ignored"; parser_error (VStr "late")]) []).1
  = Fulfilled "Ada".
Proof.
  apply (extractTextFromPdf_first_terminal_decides _ _ _ [text_item "Ada"]
           [text_item "ignored"; parser_error (VStr "late")] end_of_stream).
  - reflexivity.
  - repeat constructor.
  - reflexivity.
Defined.



(** X18: When the download fails, [parse-cv-from-url] answers with both
    prefixes in front of the original message, the parser is not run, and
    the one log line is that of [parsePdfFromUrl]. *)
Theorem parse_cv_download_failure (url : string) (w : World) (tr : list event) (e : error) :
  (axios_get_arraybuffer url w tr).1 = Rejected e →
  parse_cv_from_url_handler url w tr
  = (Fulfilled (text_content (VStr (
       "Error parsing CV from URL: Failed to process PDF from URL: " +:+ message e))),
     tr ++ [Fetched url; ConsoleError [VStr "Error processing PDF:"; VStr (message e)]]).
Proof.
  intros Hdownload.
  unfold parse_cv_from_url_handler. rewrite try_catch_run, bind_run.
  unfold parsePdfFromUrl. rewrite try_catch_run, bind_run.
  destruct (axios_get_arraybuffer url w tr) as [o tr'] eqn:Hrun.
  simpl in Hdownload. subst o.
  unfold axios_get_arraybuffer in Hrun. injection Hrun as _ <-.
  simpl. by rewrite <- app_assoc.
Qed.

Lemma parse_cv_download_failure_witness :
  parse_cv_from_url_handler "https://example.com/cv.pdf" (pdf_world (Http 404 []) []) []
  = (Fulfilled (text_content (VStr
       "Error parsing CV from URL: Failed to process PDF from URL: Request failed with status code 404")),
     [Fetched "https://example.com/cv.pdf";
      ConsoleError [VStr "Error processing PDF:";
                    VStr "Request failed with status code 404"]]).
Proof.
  apply (parse_cv_download_failure "https://example.com/cv.pdf" (pdf_world (Http 404 []) []) []
           {| message := "Request failed with status code 404";
              response_data := Some (VObj []) |}).
  reflexivity.
Defined.

(** X19: The whole path of [parse-cv-from-url]: a successful download whose
    parse runs through items to a terminal item is answered with the
    fragments joined by single spaces, after one fetch and without a log
    line. *)
Theorem parse_cv_success (url : string) (w : World) (tr : list event)
    (bytes : list Byte.byte) (cbs : list callback) (terminal : callback) :
  (axios_get_arraybuffer url w tr).1 = Fulfilled {| data := bytes |} →
  PdfReader_parseBuffer w bytes = cbs ++ [terminal] →
  Forall (λ cb, is_item cb = true) cbs →
  is_terminal terminal = true →
  parse_cv_from_url_handler url w tr
  = (Fulfilled (text_content (VStr (join " " (fragments cbs)))), tr ++ [Fetched url]).
Proof.
  intros Hdownload Hparse Hitems Hterminal.
  unfold parse_cv_from_url_handler. rewrite try_catch_run, bind_run.
  unfold parsePdfFromUrl. rewrite try_catch_run, bind_run.
  destruct (axios_get_arraybuffer url w tr) as [o tr'] eqn:Hrun.
  simpl in Hdownload. subst o.
  unfold axios_get_arraybuffer in Hrun. injection Hrun as _ <-.
  cbv beta iota. cbn [data]. unfold Buffer_from. rewrite map_result_run.
  unfold extractTextFromPdf. rewrite Hparse, fold_left_app.
  rewrite (fold_on_item_items cbs) by done. simpl.
  unfold is_terminal in Hterminal. apply andb_true_iff in Hterminal as [Herr Hnull].
  apply negb_true_iff in Herr. unfold on_item. rewrite Herr.
  destruct (item terminal); [done|]. simpl. by rewrite app_nil_r.
Qed.

Lemma parse_cv_success_witness :
  parse_cv_from_url_handler "https://example.com/cv.pdf"
    (pdf_world (Http 200 []) [text_item "Ada"; text_item "Lovelace"; end_of_stream]) []
  = (Fulfilled (text_content (VStr "Ada Lovelace")), [Fetched "https://example.com/cv.pdf"]).
Proof.
  apply (parse_cv_success "https://example.com/cv.pdf" _ [] []
           [text_item "Ada"; text_item "Lovelace"] end_of_stream).
  - reflexivity.
  - reflexivity.
  - repeat constructor.
  - reflexivity.
Defined.

(** ** The [quick-application-submit] prompt *)

Lemma String_split_nonempty sep s : String_split sep s ≠ [].
Proof.
  destruct s as [|c rest]; [done|]. simpl.
  destruct (Ascii.eqb c sep); [done|]. by destruct (String_split sep rest).
Qed.

(** Joining the pieces with the separator gives the string back. *)
Lemma join_String_split sep s : join (String sep "") (String_split sep s) = s.
Proof.
  induction s as [|c rest IH]; [done|]. simpl.
  destruct (Ascii.eqb_spec c sep) as [->|Hother].
  - destruct (String_split sep rest) as [|piece pieces] eqn:Hsplit.
    + by destruct (String_split_nonempty sep rest).
    + change (String sep (join (String sep "") (piece :: pieces)) = String sep rest).
      by rewrite IH.
  - destruct (String_split sep rest) as [|piece pieces] eqn:Hsplit.
    + by destruct (String_split_nonempty sep rest).
    + rewrite <- IH. by destruct pieces.
Qed.

(** The first piece holds no separator. *)
Lemma String_split_head sep s piece pieces :
  String_split sep s = piece :: pieces → ∀ a b, piece ≠ a +:+ String sep b.
Proof.
  revert piece pieces. induction s as [|c rest IH]; intros piece pieces Hsplit a b.
  - injection Hsplit as <- _. by destruct a.
  - simpl in Hsplit. destruct (Ascii.eqb_spec c sep) as [->|Hother].
    + injection Hsplit as <- _. by destruct a.
    + destruct (String_split sep rest) as [|piece' pieces'] eqn:Hrest.
      * by destruct (String_split_nonempty sep rest).
      * injection Hsplit as <- <-.
        destruct a as [|c' a'].
        -- intros [= -> _]. done.
        -- intros [= _ Heq]. by apply (IH piece' pieces' eq_refl a' b).
Qed.

(** X20: How [quick-application-submit] splits the candidate's name: the first
    name is the text before the first space and holds no space; a name
    without a space is all first name, with an empty last name; otherwise
    the name is the first name, one space and the last name, so that
    nothing of the name is lost. *)
Theorem candidate_names_split (candidateName : string) :
  ∃ firstName lastName,
    candidate_names candidateName = (VStr firstName, lastName)
    ∧ (∀ a b, firstName ≠ a +:+ " " +:+ b)
    ∧ (candidateName = firstName ∧ lastName = ""
       ∨ candidateName = firstName +:+ " " +:+ lastName).
Proof.
  unfold candidate_names.
  pose proof (join_String_split space candidateName) as Hjoin.
  pose proof (String_split_head space candidateName) as Hhead.
  destruct (String_split space candidateName) as [|first rest] eqn:Hsplit.
  { by destruct (String_split_nonempty space candidateName). }
  exists first, (join " " rest).
  split; [|split].
  - cbn [tail]. f_equal. unfold or_else. cbn [truthy to_string].
    by destruct (String.eqb_spec (join " " rest) "") as [->|].
  - apply (Hhead first rest eq_refl).
  - destruct rest as [|second rest]; [by left|]. right. by rewrite <- Hjoin.
Qed.








(** ** Start-up configuration *)

(** X22: The server starts only with both settings present and non-empty. The
    API key is checked first: when it is missing or empty the error names
    it, whatever the subdomain; the error names the subdomain only when the
    key is fine. *)
Theorem check_configuration_cases (env : gmap string string) :
  let configured (name : string) := ∃ v, env !! name = Some v ∧ v ≠ "" in
  (check_configuration env = None
   ↔ configured "PINPOINT_API_KEY" ∧ configured "PINPOINT_SUBDOMAIN")
  ∧ (check_configuration env
     = Some (Error "PINPOINT_API_KEY environment variable is required")
     ↔ ¬ configured "PINPOINT_API_KEY")
  ∧ (check_configuration env
     = Some (Error "PINPOINT_SUBDOMAIN environment variable is required")
     ↔ configured "PINPOINT_API_KEY" ∧ ¬ configured "PINPOINT_SUBDOMAIN").
Proof.
  cbv zeta.
  assert (Hset : ∀ name, truthy (process_env env name) = true
                         ↔ ∃ v, env !! name = Some v ∧ v ≠ "").
  { intros name. unfold process_env. destruct (env !! name) as [v|]; simpl.
    - destruct (String.eqb_spec v ""); simpl; naive_solver.
    - naive_solver. }
  unfold check_configuration.
  rewrite <- !Hset.
  destruct (truthy (process_env env "PINPOINT_API_KEY"));
    destruct (truthy (process_env env "PINPOINT_SUBDOMAIN")); simpl;
    unfold Error; naive_solver.
Qed.
